(** * promo_bot: the promo-code lifecycle of [app.py]

    A shallow embedding of the database functions of [app.py]
    ([generate_unique_code], [create_promo_code_for_user],
    [has_user_received_code], [apply_promo_code], the [get_promo] branch
    of [button_handler] and [admin_stats]) together with the table
    [promo_codes] they work on, followed by the properties of the
    lifecycle: single-use redemption, one code per identity, the
    used/unused row invariant, the retry policy of issuance, the code
    format and the statistics.

    Conventions of the embedding.
    - A Python value that may be [None] is an [option]; a [str] is a
      [string] (its UTF-8 bytes; codes are pure ASCII, so byte length
      and character length agree on them).
    - The table is the list of its rows in rowid order; [fetchone]
      after a [SELECT] is the first matching row.
    - [random] is a tape of raw draws read at a cursor that the world
      carries; [datetime.now()] readings are inputs.
    - [while True] in [generate_unique_code] is unfolded [fuel] times;
      running out of fuel is [None] and stands for a call that has not
      returned yet.
    - An exception raised by [sqlite3] inside the [try] block of
      [create_promo_code_for_user] is either what the table constraints
      of [init_db] raise or what the environment of the attempt raises
      (lock timeout, disk error, a concurrent writer). *)

From Stdlib Require Import String Ascii List ZArith Lia Bool Arith PeanoNat.
From Stdlib Require Import DecimalString.
Import ListNotations.

Local Open Scope string_scope.

(** ** Configuration (lines 13-25) *)

Definition CODE_LENGTH : nat := 8.
Definition CODE_PREFIX : string := "DC".
Definition DISCOUNT_TEMPLATE : string := "10%".

(** ** Python helpers *)

Module Py.

(** [string.ascii_uppercase] and [string.digits]. *)
Definition ascii_uppercase : string := "ABCDEFGHIJKLMNOPQRSTUVWXYZ".
Definition digits : string := "0123456789".

(** Truth value of a [str]: the empty string is falsy. *)
Definition truthy (s : string) : bool :=
  match s with
  | EmptyString => false
  | String _ _ => true
  end.

(** Truth value of a value that is a [str] or [None]. *)
Definition truthy_opt (s : option string) : bool :=
  match s with
  | None => false
  | Some s => truthy s
  end.

(** [sub in s] on strings. *)
Fixpoint contains (sub s : string) : bool :=
  String.prefix sub s ||
  match s with
  | EmptyString => false
  | String _ s' => contains sub s'
  end.

(** [x in xs] on a list of strings. *)
Definition mem (x : string) (xs : list string) : bool :=
  existsb (String.eqb x) xs.

(** [str(n)] for an [int]. *)
Definition str_of_int (n : Z) : string :=
  NilZero.string_of_int (Z.to_int n).

Definition is_upper (c : ascii) : bool :=
  let n := nat_of_ascii c in (65 <=? n)%nat && (n <=? 90)%nat.

Definition is_digit (c : ascii) : bool :=
  let n := nat_of_ascii c in (48 <=? n)%nat && (n <=? 57)%nat.

Definition is_upper_alnum (c : ascii) : bool := is_upper c || is_digit c.

(** All characters from position [n] on satisfy [p]. *)
Definition all_from (p : ascii -> bool) (n : nat) (s : string) : bool :=
  forallb p (skipn n (list_ascii_of_string s)).

End Py.

(** ** The table [promo_codes] (lines 34-52) *)

Definition timestamp := Z.
Bind Scope Z_scope with timestamp.

Record PromoCode := mkPromoCode {
  id : Z;
  code : string;
  discount_value : string;
  is_used : bool;
  created_at : timestamp;
  used_at : option timestamp;
  issued_to : option string;
  issued_at : option timestamp;
  used_by : option string
}.

(** The process and its database: the rows, the AUTOINCREMENT counter
    and the cursor of [random] on the tape. *)
Record World := mkWorld {
  promo_codes : list PromoCode;
  last_id : Z;
  rng_pos : nat
}.

Definition empty_world : World :=
  {| promo_codes := []; last_id := 0; rng_pos := 0 |}.

(** What [sqlite3] raises: [sqlite3.IntegrityError] with its message, or
    any other [Exception]. *)
Inductive exn :=
| IntegrityError (msg : string)
| OtherException (msg : string).

Module Sql.

(** [column = ?] with a bound parameter: a NULL on either side never
    compares equal. *)
Definition eq_param (column param : option string) : bool :=
  match column, param with
  | Some a, Some b => String.eqb a b
  | _, _ => false
  end.

(** [SELECT ... FROM promo_codes WHERE code = ?] then [fetchone]. *)
Definition select_by_code (c : string) (rows : list PromoCode)
  : option PromoCode :=
  find (fun r => String.eqb (code r) c) rows.

(** [SELECT code FROM promo_codes WHERE issued_to = ?] then [fetchone]. *)
Definition select_by_issued_to (u : option string) (rows : list PromoCode)
  : option PromoCode :=
  find (fun r => eq_param (issued_to r) u) rows.

(** [SELECT COUNT( * ) FROM promo_codes WHERE p]. *)
Definition count_where (p : PromoCode -> bool) (rows : list PromoCode) : Z :=
  Z.of_nat (length (filter p rows)).

Definition unique_failed : string :=
  "UNIQUE constraint failed: promo_codes.code".
Definition not_null_failed : string :=
  "NOT NULL constraint failed: promo_codes.issued_to".

(** The row that an [INSERT] of lines 92-95 adds: [id] is AUTOINCREMENT,
    [is_used] defaults to FALSE and [used_at], [used_by] to NULL. *)
Definition new_row (i : Z) (c dv : string) (created : timestamp)
    (to : option string) (issued : timestamp) : PromoCode :=
  {| id := i;
     code := c;
     discount_value := dv;
     is_used := false;
     created_at := created;
     used_at := None;
     issued_to := to;
     issued_at := Some issued;
     used_by := None |}.

(** [INSERT INTO promo_codes (code, discount_value, created_at,
    issued_to, issued_at) VALUES (?, ?, ?, ?, ?)] and [commit], under
    the constraints of [init_db]: [issued_to] is NOT NULL and [code] is
    UNIQUE. *)
Definition insert (c dv : string) (created : timestamp)
    (to : option string) (issued : timestamp) (w : World)
  : exn + World :=
  match to with
  | None => inl (IntegrityError not_null_failed)
  | Some _ =>
      match select_by_code c (promo_codes w) with
      | Some _ => inl (IntegrityError unique_failed)
      | None =>
          inr {| promo_codes :=
                   promo_codes w ++
                   [new_row (last_id w + 1) c dv created to issued];
                 last_id := last_id w + 1;
                 rng_pos := rng_pos w |}
      end
  end.

Definition set_used (now : timestamp) (by_ : option string) (r : PromoCode)
  : PromoCode :=
  {| id := id r;
     code := code r;
     discount_value := discount_value r;
     is_used := true;
     created_at := created_at r;
     used_at := Some now;
     issued_to := issued_to r;
     issued_at := issued_at r;
     used_by := by_ |}.

(** [UPDATE promo_codes SET is_used = TRUE, used_at = ?, used_by = ?
    WHERE code = ?] and [commit]. *)
Definition update_used (c : string) (now : timestamp) (by_ : option string)
    (w : World) : World :=
  {| promo_codes :=
       map (fun r => if String.eqb (code r) c then set_used now by_ r else r)
           (promo_codes w);
     last_id := last_id w;
     rng_pos := rng_pos w |}.

End Sql.

(** ** The environment of one attempt of issuance

    What the outside world contributes to one iteration of the loop of
    [create_promo_code_for_user]: an exception raised before the
    [SELECT] of line 85 has answered ([connect], [cursor], [execute]),
    an exception raised by the [INSERT] or the [commit] of lines 92-96,
    and the two readings of [datetime.now()] of line 95. *)
Record AttemptEnv := mkAttemptEnv {
  raise_on_select : option exn;
  raise_on_insert : option exn;
  now_created : timestamp;
  now_issued : timestamp
}.

Definition quiet (t : timestamp) : AttemptEnv :=
  {| raise_on_select := None; raise_on_insert := None;
     now_created := t; now_issued := t |}.

(** Outcome of the body of the [try] block, lines 81-99. *)
Inductive attempt_result :=
| Collision
| Created (w : World)
| Raised (e : exn).

(** What the [except] clauses decide, lines 101-122. *)
Inductive handler_action :=
| TryAgain
| GiveUp.

Section Lifecycle.

(** The raw draws of [random]. *)
Variable tape : nat -> nat.

(** [ADMIN_USER_NAMES], read from the environment at line 18. *)
Variable ADMIN_USER_NAMES : list string.

(** [random.choices(population, k=k)], reading the tape at [pos]. *)
Definition choices (population : string) (k : nat) (pos : nat) : list ascii :=
  map (fun i => nth (tape i mod String.length population)
                    (list_ascii_of_string population) "000"%char)
      (seq pos k).

(** One candidate, lines 58-59. *)
Definition candidate (pos : nat) : string :=
  let random_part :=
    string_of_list_ascii
      (choices (Py.ascii_uppercase ++ Py.digits) CODE_LENGTH pos) in
  if Py.truthy CODE_PREFIX then CODE_PREFIX ++ random_part else random_part.

Definition advance (w : World) (k : nat) : World :=
  {| promo_codes := promo_codes w; last_id := last_id w;
     rng_pos := rng_pos w + k |}.

(** [generate_unique_code], lines 55-68. *)
Fixpoint generate_unique_code (fuel : nat) (w : World)
  : option (string * World) :=
  match fuel with
  | O => None
  | S fuel' =>
      let code := candidate (rng_pos w) in
      let w' := advance w CODE_LENGTH in
      match Sql.select_by_code code (promo_codes w') with
      | Some _ => generate_unique_code fuel' w'
      | None => Some (code, w')
      end
  end.

(** The body of the [try] block, lines 81-99. *)
Definition attempt (env : AttemptEnv) (code : string)
    (user_name : option string) (w : World) : attempt_result :=
  match raise_on_select env with
  | Some e => Raised e
  | None =>
      match Sql.select_by_code code (promo_codes w) with
      | Some _ => Collision
      | None =>
          match raise_on_insert env with
          | Some e => Raised e
          | None =>
              match Sql.insert code DISCOUNT_TEMPLATE (now_created env)
                               user_name (now_issued env) w with
              | inl e => Raised e
              | inr w' => Created w'
              end
          end
      end
  end.

(** The [except] clauses, lines 101-122. *)
Definition on_exception (e : exn) : handler_action :=
  match e with
  | IntegrityError error_msg =>
      if Py.contains "UNIQUE constraint failed: promo_codes.code" error_msg
      then TryAgain
      else if Py.contains "NOT NULL constraint failed" error_msg
      then GiveUp
      else GiveUp
  | OtherException _ => GiveUp
  end.

Definition MAX_ATTEMPTS : nat := 10.

(** The loop of lines 76-129, entered with [attempts] and with
    [remaining = MAX_ATTEMPTS - attempts] iterations left. *)
Fixpoint create_loop (fuel : nat) (user_name : option string)
    (env : nat -> AttemptEnv) (remaining attempts : nat) (w : World)
  : option ((option string * option string) * World) :=
  match remaining with
  | O => Some ((None, None), w)
  | S remaining' =>
      match generate_unique_code fuel w with
      | None => None
      | Some (code, w1) =>
          match attempt (env attempts) code user_name w1 with
          | Collision =>
              create_loop fuel user_name env remaining' (S attempts) w1
          | Created w2 => Some ((Some code, Some DISCOUNT_TEMPLATE), w2)
          | Raised e =>
              match on_exception e with
              | TryAgain =>
                  create_loop fuel user_name env remaining' (S attempts) w1
              | GiveUp => Some ((None, None), w1)
              end
          end
      end
  end.

(** [create_promo_code_for_user], lines 71-129. *)
Definition create_promo_code_for_user (fuel : nat)
    (user_name : option string) (env : nat -> AttemptEnv) (w : World)
  : option ((option string * option string) * World) :=
  create_loop fuel user_name env MAX_ATTEMPTS 0 w.

(** [has_user_received_code], lines 132-139. *)
Definition has_user_received_code (user_name : option string) (w : World)
  : bool :=
  match Sql.select_by_issued_to user_name (promo_codes w) with
  | Some _ => true
  | None => false
  end.

(** The read half of [apply_promo_code], lines 144-165. *)
Inductive checked :=
| Rejected (message : string)
| Passed (discount : string).

Definition apply_check (code : string) (w : World) : checked :=
  match Sql.select_by_code code (promo_codes w) with
  | None => Rejected "Код не найден"
  | Some result =>
      if negb (Py.truthy_opt (issued_to result))
      then Rejected "Код не был выдан пользователю"
      else if is_used result
      then Rejected "Код уже использован"
      else Passed (discount_value result)
  end.

Definition applied_message (code discount : string) : string :=
  "✅ Код '" ++ code ++ "' на скидку " ++ discount ++ " успешно применен!".

(** The write half of [apply_promo_code], lines 167-176. *)
Definition apply_write (code : string) (applied_by_user_id : option string)
    (now : timestamp) (discount : string) (w : World)
  : (bool * string) * World :=
  ((true, applied_message code discount),
   Sql.update_used code now applied_by_user_id w).

(** [apply_promo_code], lines 142-176. *)
Definition apply_promo_code (code : string)
    (applied_by_user_id : option string) (now : timestamp) (w : World)
  : (bool * string) * World :=
  match apply_check code w with
  | Rejected message => ((false, message), w)
  | Passed discount => apply_write code applied_by_user_id now discount w
  end.

(** The [get_promo] branch of [button_handler], lines 327-358, after
    [get_chat_member] has answered with [status]. *)
Inductive promo_reply :=
| SubscribeFirst
| AlreadyReceived
| IssueFailed
| CodeSent (code discount : string).

Definition is_subscribed (status : string) : bool :=
  Py.mem status ["member"; "administrator"; "creator"].

Definition button_handler_get_promo (fuel : nat) (status user_name : string)
    (env : nat -> AttemptEnv) (w : World) : option (promo_reply * World) :=
  if is_subscribed status then
    if has_user_received_code (Some user_name) w then Some (AlreadyReceived, w)
    else
      match create_promo_code_for_user fuel (Some user_name) env w with
      | None => None
      | Some ((None, _), w') => Some (IssueFailed, w')
      | Some ((Some code, discount), w') =>
          Some (CodeSent code (match discount with
                               | Some d => d
                               | None => "None"
                               end), w')
      end
  else Some (SubscribeFirst, w).

(** The text of [admin_stats], lines 422-431. *)
Definition nl : string := String (ascii_of_nat 10) EmptyString.

Definition stats_text (total issued used active : Z) : string :=
  nl ++ "📊 Статистика промо-кодов:" ++ nl ++ nl ++
  "• Всего сгенерировано: " ++ Py.str_of_int total ++ nl ++
  "• Выдано пользователям: " ++ Py.str_of_int issued ++ nl ++
  "• Использовано: " ++ Py.str_of_int used ++ nl ++
  "• Активных: " ++ Py.str_of_int active ++ nl ++ nl ++
  "Шаблон скидки: " ++ DISCOUNT_TEMPLATE ++ nl ++ "    ".

Definition is_not_null {A : Type} (o : option A) : bool :=
  match o with
  | Some _ => true
  | None => false
  end.

(** [admin_stats], lines 401-433: the reply and the world after it. *)
Definition admin_stats (user_name : string) (w : World) : string * World :=
  if negb (Py.mem user_name ADMIN_USER_NAMES) then
    ("У вас нет прав для этой команды.", w)
  else
    let total := Sql.count_where (fun _ => true) (promo_codes w) in
    let issued :=
      Sql.count_where (fun r => is_not_null (issued_to r)) (promo_codes w) in
    let used := Sql.count_where is_used (promo_codes w) in
    (stats_text total issued used (issued - used), w).

(** ** Sequences of requests *)

Inductive request :=
| GetPromo (status user_name : string) (env : nat -> AttemptEnv)
| Apply (code : string) (applied_by_user_id : option string) (now : timestamp).

Inductive response :=
| PromoReply (r : promo_reply)
| ApplyReply (r : bool * string).

Definition handle (fuel : nat) (q : request) (w : World)
  : option (response * World) :=
  match q with
  | GetPromo status user_name env =>
      match button_handler_get_promo fuel status user_name env w with
      | None => None
      | Some (r, w') => Some (PromoReply r, w')
      end
  | Apply c by_ now =>
      let '(r, w') := apply_promo_code c by_ now w in
      Some (ApplyReply r, w')
  end.

Fixpoint run (fuel : nat) (qs : list request) (w : World)
  : option (list response * World) :=
  match qs with
  | [] => Some ([], w)
  | q :: qs' =>
      match handle fuel q w with
      | None => None
      | Some (r, w1) =>
          match run fuel qs' w1 with
          | None => None
          | Some (rs, w2) => Some (r :: rs, w2)
          end
      end
  end.

Definition is_code_sent (r : response) : bool :=
  match r with
  | PromoReply (CodeSent _ _) => true
  | _ => false
  end.

Definition is_applied (r : response) : bool :=
  match r with
  | ApplyReply (true, _) => true
  | _ => false
  end.

(** ** Two calls of [apply_promo_code] in flight

    Each call runs its [SELECT] (lines 144-165) and, when the checks
    pass, its [UPDATE] and [commit] (lines 167-176) on a connection of
    its own; a schedule says which of the two calls takes its next
    step. *)

Inductive progress :=
| Pending
| Selected (discount : string)
| Returned (r : bool * string).

Record call := mkCall {
  call_code : string;
  call_by : option string;
  call_now : timestamp;
  call_at : progress
}.

Definition start (c : string) (by_ : option string) (now : timestamp) : call :=
  {| call_code := c; call_by := by_; call_now := now; call_at := Pending |}.

Definition at_ (k : call) (p : progress) : call :=
  {| call_code := call_code k; call_by := call_by k;
     call_now := call_now k; call_at := p |}.

Definition step_call (k : call) (w : World) : call * World :=
  match call_at k with
  | Pending =>
      match apply_check (call_code k) w with
      | Rejected message => (at_ k (Returned (false, message)), w)
      | Passed discount => (at_ k (Selected discount), w)
      end
  | Selected discount =>
      let '(r, w') :=
        apply_write (call_code k) (call_by k) (call_now k) discount w in
      (at_ k (Returned r), w')
  | Returned _ => (k, w)
  end.

Inductive caller := First | Second.

Fixpoint interleave (schedule : list caller) (a b : call) (w : World)
  : call * call * World :=
  match schedule with
  | [] => (a, b, w)
  | First :: rest =>
      let '(a', w') := step_call a w in interleave rest a' b w'
  | Second :: rest =>
      let '(b', w') := step_call b w in interleave rest a b' w'
  end.

End Lifecycle.

(** ** The row invariant of the data model *)

Definition row_consistent (r : PromoCode) : bool :=
  if is_used r
  then is_not_null (used_at r) && is_not_null (used_by r)
  else negb (is_not_null (used_at r)) && negb (is_not_null (used_by r)).

Definition table_consistent (rows : list PromoCode) : bool :=
  forallb row_consistent rows.

(** Rows issued to [u]. *)
Definition rows_of (u : string) (rows : list PromoCode) : list PromoCode :=
  filter (fun r => Sql.eq_param (issued_to r) (Some u)) rows.

(** ** Sample inputs *)

(** A tape whose every draw is 0: every candidate is [DCAAAAAAAA]. *)
Definition tape_zero : nat -> nat := fun _ => 0.

(** A tape that counts: the draws are 0, 1, 2, ... *)
Definition tape_count : nat -> nat := fun i => i.

Definition t0 : timestamp := 1700000000%Z.

Definition all_quiet : nat -> AttemptEnv := fun _ => quiet t0.

Definition always_unique_failed : nat -> AttemptEnv := fun _ =>
  {| raise_on_select := None;
     raise_on_insert := Some (IntegrityError Sql.unique_failed);
     now_created := t0; now_issued := t0 |}.

Definition row_AAAAAAAA (u : string) : PromoCode :=
  Sql.new_row 1 "DCAAAAAAAA" "10%" t0 (Some u) t0.

Definition world_one (u : string) : World :=
  {| promo_codes := [row_AAAAAAAA u]; last_id := 1; rng_pos := 8 |}.

(** ** Vocabulary of the properties *)

(** A uniqueness violation: an [IntegrityError] that says that the
    UNIQUE constraint on [promo_codes.code] failed. *)
Definition is_uniqueness_violation (e : exn) : bool :=
  match e with
  | IntegrityError msg =>
      Py.contains "UNIQUE constraint failed: promo_codes.code" msg
  | OtherException _ => false
  end.

(** An attempt whose [INSERT] the store rejects with a uniqueness
    violation. *)
Definition insert_rejected_as_duplicate (env : AttemptEnv) : Prop :=
  raise_on_select env = None
  /\ exists e, raise_on_insert env = Some e
              /\ is_uniqueness_violation e = true.

(** Over the table [rows], every call of the generator returns within
    [fuel] draws, wherever the tape is read from. *)
Definition generator_returns (tape : nat -> nat) (fuel : nat)
    (rows : list PromoCode) : Prop :=
  forall (lid : Z) (pos : nat),
    generate_unique_code tape fuel
      {| promo_codes := rows; last_id := lid; rng_pos := pos |} <> None.

(** A tape whose draws are 0 up to position 95 and 1 from there on. *)
Definition tape_late : nat -> nat := fun i => if (i <? 96)%nat then 0 else 1.

(** The number of rows issued to [u]. *)
Definition issued_count (u : string) (w : World) : nat :=
  length (rows_of u (promo_codes w)).


(** The same subscriber asks twice. *)
Definition asked_twice : list request :=
  [GetPromo "member" "@ann" all_quiet;
   GetPromo "member" "@ann" all_quiet].

(** The world after [@ann] has been sent the first code of the counting
    tape. *)
Definition world_ann : World :=
  {| promo_codes := [Sql.new_row 1 "DCABCDEFGH" "10%" t0 (Some "@ann") t0];
     last_id := 1; rng_pos := 8 |}.

(** What the constraints of [init_db] keep true of the table: the codes
    are pairwise distinct and [issued_to] is never NULL. *)
Definition schema_ok (rows : list PromoCode) : Prop :=
  NoDup (map code rows)
  /\ forallb (fun r => is_not_null (issued_to r)) rows = true.

(** A code that [apply_promo_code] will accept: its row is there,
    issued to a non-empty name, and not used. *)
Definition redeemable (c d : string) (w : World) : Prop :=
  exists r,
    Sql.select_by_code c (promo_codes w) = Some r
    /\ Py.truthy_opt (issued_to r) = true
    /\ is_used r = false
    /\ discount_value r = d.

Definition redeems (c : string) (q : request) : bool :=
  match q with
  | Apply c' _ _ => String.eqb c' c
  | GetPromo _ _ _ => false
  end.

(** 1 for [True], 0 for [False]. *)
Definition b2n (b : bool) : nat := if b then 1 else 0.

(** ** The other handlers of the bot *)

Module Utf8.

(** A byte of the form [10xxxxxx] continues a character. *)
Definition is_continuation (c : ascii) : bool :=
  let n := nat_of_ascii c in (128 <=? n)%nat && (n <=? 191)%nat.

(** [len(s)] for a [str]: the number of characters, not of bytes. *)
Fixpoint len (s : string) : nat :=
  match s with
  | EmptyString => 0
  | String c s' => (if is_continuation c then 0 else 1) + len s'
  end.

End Utf8.

(** The tuple that [get_code_info] returns: [code], [discount_value],
    [is_used], [created_at], [issued_to], [used_at], [used_by]. *)
Record CodeInfo := mkCodeInfo {
  info_code : string;
  info_discount : string;
  info_is_used : bool;
  info_created : timestamp;
  info_issued_to : option string;
  info_used_at : option timestamp;
  info_used_by : option string
}.

(** [get_code_info], lines 179-189. *)
Definition get_code_info (code_ : string) (w : World) : option CodeInfo :=
  match Sql.select_by_code code_ (promo_codes w) with
  | Some r =>
      Some {| info_code := code r;
              info_discount := discount_value r;
              info_is_used := is_used r;
              info_created := created_at r;
              info_issued_to := issued_to r;
              info_used_at := used_at r;
              info_used_by := used_by r |}
  | None => None
  end.

(** What a message handler sends back: a text, or the block of details
    of a code, which [handle_photo] prints with the time of use and
    [handle_text] without. *)
Inductive reply :=
| Say (message : string)
| SayDetails (info : CodeInfo) (with_used_at : bool).

(** What [button_handler] answers. *)
Inductive button_reply :=
| Promo (r : promo_reply)
| ScanPrompt
| HelpForStaff
| HelpForClients
| StatsText (text : string)
| Silent.

Section Bot.

Variable tape : nat -> nat.
Variable ADMIN_USER_NAMES : list string.

(** The test of line 296 on the stripped text. *)
Definition looks_like_code (text : string) : bool :=
  (Py.truthy CODE_PREFIX && String.prefix CODE_PREFIX text)
  || Nat.eqb (Utf8.len text) (Utf8.len CODE_PREFIX + CODE_LENGTH).

(** [handle_text], lines 288-317; [text] is the text of the message
    after [strip()], [user] is [update.effective_user] and its name. *)
Definition handle_text (user : option string) (text : string)
    (now : timestamp) (w : World) : list reply * World :=
  match user with
  | None => ([], w)
  | Some name =>
      if Py.mem name ADMIN_USER_NAMES then
        if looks_like_code text then
          let '((success, message), w') :=
            apply_promo_code text (Some name) now w in
          if Py.mem name ADMIN_USER_NAMES && success then
            match get_code_info text w' with
            | Some info => ([Say message; SayDetails info false], w')
            | None => ([Say message], w')
            end
          else ([Say message], w')
        else ([Say "Отправьте мне QR-код или промо-код для активации"], w)
      else ([Say "Только администраторы могут применить промокод"], w)
  end.

(** [handle_photo], lines 233-268; [qr_text] is what
    [read_qr_code_from_image] has read from the photo, [None] when it
    found no code or failed. *)
Definition handle_photo (name : string) (qr_text : option string)
    (now : timestamp) (w : World) : list reply * World :=
  match qr_text with
  | Some text =>
      if Py.truthy text then
        let '((success, message), w') :=
          apply_promo_code text (Some name) now w in
        if Py.mem name ADMIN_USER_NAMES then
          match get_code_info text w' with
          | Some info => ([Say message; SayDetails info true], w')
          | None => ([Say message], w')
          end
        else ([Say message], w')
      else ([Say "❌ QR-код не найден на изображении. Убедитесь, что фото четкое и код хорошо виден."], w)
  | None => ([Say "❌ QR-код не найден на изображении. Убедитесь, что фото четкое и код хорошо виден."], w)
  end.

(** [button_handler], lines 319-398, after [get_chat_member] has
    answered with [status]. *)
Definition button_handler (fuel : nat) (data status name : string)
    (env : nat -> AttemptEnv) (w : World) : option (button_reply * World) :=
  if String.eqb data "get_promo" then
    match button_handler_get_promo tape fuel status name env w with
    | Some (r, w') => Some (Promo r, w')
    | None => None
    end
  else if String.eqb data "scan_qr" then Some (ScanPrompt, w)
  else if String.eqb data "help" && Py.mem name ADMIN_USER_NAMES then
    Some (HelpForStaff, w)
  else if String.eqb data "help" then Some (HelpForClients, w)
  else if Py.mem name ADMIN_USER_NAMES then
    if String.eqb data "admin_stats" then
      let '(text, w') := admin_stats ADMIN_USER_NAMES name w in
      Some (StatsText text, w')
    else Some (Silent, w)
  else Some (Silent, w).

(** The updates that [main] registers handlers for, lines 441-445. *)
Inductive update :=
| CallbackQuery (data status name : string) (env : nat -> AttemptEnv)
| TextMessage (user : option string) (text : string) (now : timestamp)
| PhotoMessage (name : string) (qr_text : option string) (now : timestamp)
| StatsCommand (name : string).

Inductive answer :=
| Button (r : button_reply)
| Messages (rs : list reply)
| Stats (text : string).

Definition dispatch (fuel : nat) (u : update) (w : World)
  : option (answer * World) :=
  match u with
  | CallbackQuery data status name env =>
      match button_handler fuel data status name env w with
      | Some (r, w') => Some (Button r, w')
      | None => None
      end
  | TextMessage user text now =>
      let '(rs, w') := handle_text user text now w in
      Some (Messages rs, w')
  | PhotoMessage name qr_text now =>
      let '(rs, w') := handle_photo name qr_text now w in
      Some (Messages rs, w')
  | StatsCommand name =>
      let '(text, w') := admin_stats ADMIN_USER_NAMES name w in
      Some (Stats text, w')
  end.

(** The updates of a session, served one after the other. *)
Fixpoint serve (fuel : nat) (us : list update) (w : World)
  : option (list answer * World) :=
  match us with
  | [] => Some ([], w)
  | u :: us' =>
      match dispatch fuel u w with
      | None => None
      | Some (a, w1) =>
          match serve fuel us' w1 with
          | None => None
          | Some (answers, w2) => Some (a :: answers, w2)
          end
      end
  end.

End Bot.

(** A request that names who applies the code, as every handler does. *)
Definition names_applier (q : request) : bool :=
  match q with
  | GetPromo _ _ _ => true
  | Apply _ by_ _ => is_not_null by_
  end.

(** [l1] is the beginning of [l2]. *)
Definition begins_with {A : Type} (l2 l1 : list A) : Prop :=
  exists rest, l2 = (l1 ++ rest)%list.

(** A subscriber gets a code, then staff types it. *)
Definition issued_then_typed : list update :=
  [CallbackQuery "get_promo" "member" "@ann" all_quiet;
   TextMessage (Some "@boss") "DCABCDEFGH" 1700000100].

(** The columns of a row that issuance writes. *)
Definition issue_part (r : PromoCode)
  : Z * string * string * timestamp * option string * option timestamp :=
  (id r, code r, discount_value r, created_at r, issued_to r, issued_at r).

(** What [get_code_info] returns for the row [r]. *)
Definition info_of (r : PromoCode) : CodeInfo :=
  {| info_code := code r;
     info_discount := discount_value r;
     info_is_used := is_used r;
     info_created := created_at r;
     info_issued_to := issued_to r;
     info_used_at := used_at r;
     info_used_by := used_by r |}.

(** An update that can reach [apply_promo_code]: a photo, or a text from
    an administrator. *)
Definition may_apply (admins : list string) (u : update) : bool :=
  match u with
  | PhotoMessage _ _ _ => true
  | TextMessage (Some name) _ _ => Py.mem name admins
  | TextMessage None _ _ => false
  | CallbackQuery _ _ _ _ => false
  | StatsCommand _ => false
  end.

(** A stranger types a code, a subscriber asks for one, the stranger
    asks for the statistics. *)
Definition no_staff_no_photo : list update :=
  [TextMessage (Some "@mallory") "DCAAAAAAAA" 9;
   CallbackQuery "get_promo" "member" "@bob" all_quiet;
   StatsCommand "@mallory"].

(** The world a session ends in. *)
Definition final_world (o : option (list answer * World)) : World :=
  match o with
  | Some (_, w) => w
  | None => empty_world
  end.

(** An administrator types a code, then a stranger sends it on a photo. *)
Definition typed_then_photographed : list update :=
  [TextMessage (Some "@boss") "DCAAAAAAAA" 9;
   PhotoMessage "@mallory" (Some "DCAAAAAAAA") 10].

(** The world in which [@staff] has applied the code of [@ann]. *)
Definition world_used : World :=
  Sql.update_used "DCAAAAAAAA" 5 (Some "@staff") (world_one "@ann").

(** Three subscribers ask for a code. *)
Definition three_codes : list update :=
  [CallbackQuery "get_promo" "member" "@ann" all_quiet;
   CallbackQuery "get_promo" "member" "@bob" all_quiet;
   CallbackQuery "get_promo" "administrator" "@cyd" all_quiet].

(** * Properties *)

(** ** Strings *)

Lemma length_append (s1 s2 : string) :
  String.length (s1 ++ s2) = String.length s1 + String.length s2.
Proof. induction s1 as [|a s1 IH]; simpl; [reflexivity | now rewrite IH]. Qed.

Lemma length_of_list_ascii (l : list ascii) :
  String.length (string_of_list_ascii l) = length l.
Proof. induction l as [|a l IH]; simpl; [reflexivity | now rewrite IH]. Qed.

Lemma list_ascii_of_append (s1 s2 : string) :
  list_ascii_of_string (s1 ++ s2) =
  (list_ascii_of_string s1 ++ list_ascii_of_string s2)%list.
Proof. induction s1 as [|a s1 IH]; simpl; [reflexivity | now rewrite IH]. Qed.

Lemma prefix_append (s1 s2 : string) : String.prefix s1 (s1 ++ s2) = true.
Proof.
  induction s1 as [|a s1 IH]; simpl.
  - now destruct s2.
  - destruct (ascii_dec a a) as [_|ne]; [exact IH | now elim ne].
Qed.

Lemma skipn_length_app {A : Type} (l1 l2 : list A) :
  skipn (length l1) (l1 ++ l2) = l2.
Proof. induction l1 as [|a l1 IH]; simpl; [reflexivity | exact IH]. Qed.

Lemma length_list_ascii (s : string) :
  length (list_ascii_of_string s) = String.length s.
Proof. induction s as [|a s IH]; simpl; [reflexivity | now rewrite IH]. Qed.

(** ** The generator *)

Section Generator.

Variable tape : nat -> nat.

Lemma choices_length (population : string) (k pos : nat) :
  length (choices tape population k pos) = k.
Proof. unfold choices. now rewrite length_map, length_seq. Qed.

Lemma alphabet_upper_alnum (n : nat) :
  n < 36 ->
  Py.is_upper_alnum
    (nth n (list_ascii_of_string (Py.ascii_uppercase ++ Py.digits)) "000"%char)
  = true.
Proof.
  intros Hn.
  assert (Hall : forallb
            (fun i => Py.is_upper_alnum
               (nth i (list_ascii_of_string (Py.ascii_uppercase ++ Py.digits))
                    "000"%char))
            (seq 0 36) = true) by reflexivity.
  rewrite forallb_forall in Hall. apply Hall. apply in_seq. lia.
Qed.

Lemma choices_upper_alnum (k pos : nat) :
  forallb Py.is_upper_alnum
          (choices tape (Py.ascii_uppercase ++ Py.digits) k pos) = true.
Proof.
  unfold choices. apply forallb_forall. intros c Hc.
  apply in_map_iff in Hc. destruct Hc as [i [<- _]].
  apply alphabet_upper_alnum.
  change (String.length (Py.ascii_uppercase ++ Py.digits)) with 36.
  apply Nat.mod_upper_bound. discriminate.
Qed.

Lemma candidate_eq (pos : nat) :
  candidate tape pos =
  CODE_PREFIX ++
  string_of_list_ascii
    (choices tape (Py.ascii_uppercase ++ Py.digits) CODE_LENGTH pos).
Proof. reflexivity. Qed.

Lemma candidate_format (pos : nat) :
  String.length (candidate tape pos) = String.length CODE_PREFIX + CODE_LENGTH
  /\ String.prefix CODE_PREFIX (candidate tape pos) = true
  /\ Py.all_from Py.is_upper_alnum (String.length CODE_PREFIX)
                 (candidate tape pos) = true.
Proof.
  rewrite candidate_eq. split; [|split].
  - now rewrite length_append, length_of_list_ascii, choices_length.
  - apply prefix_append.
  - unfold Py.all_from.
    rewrite list_ascii_of_append, <- (length_list_ascii CODE_PREFIX).
    rewrite skipn_length_app, list_ascii_of_string_of_list_ascii.
    apply choices_upper_alnum.
Qed.

(** What a returning call of the generator has done: it has read the
    table only, it has drawn [k] candidates for some [1 <= k <= fuel],
    and the one it returns is the last drawn and is not in the table. *)
Lemma generate_unique_code_returns (fuel : nat) (w w' : World) (c : string) :
  generate_unique_code tape fuel w = Some (c, w') ->
  promo_codes w' = promo_codes w
  /\ last_id w' = last_id w
  /\ Sql.select_by_code c (promo_codes w) = None
  /\ exists k, 1 <= k <= fuel
       /\ rng_pos w' = rng_pos w + CODE_LENGTH * k
       /\ c = candidate tape (rng_pos w' - CODE_LENGTH).
Proof.
  revert w. induction fuel as [|fuel IH]; intros w H; [discriminate|].
  cbn [generate_unique_code] in H.
  destruct (Sql.select_by_code (candidate tape (rng_pos w))
              (promo_codes (advance w CODE_LENGTH))) eqn:E.
  - apply IH in H. destruct H as (Hr & Hl & Hs & k & Hk & Hp & Hc).
    cbn [advance promo_codes last_id rng_pos] in Hr, Hl, Hs, Hp.
    split; [|split; [|split]]; try assumption.
    exists (S k). unfold CODE_LENGTH in Hp |- *.
    split; [lia|]. split; [lia | exact Hc].
  - injection H as <- <-.
    cbn [advance promo_codes last_id rng_pos] in E |- *.
    split; [|split; [|split]]; try reflexivity; try assumption.
    exists 1. unfold CODE_LENGTH. split; [lia|]. split; [lia|].
    f_equal. lia.
Qed.

End Generator.

(** C7. Every code that [generate_unique_code] returns has length
    [len(CODE_PREFIX) + CODE_LENGTH], which is 10, starts with the
    prefix, and has only uppercase letters and digits after it. *)
Theorem generated_code_format (tape : nat -> nat) (fuel : nat)
    (w w' : World) (c : string) :
  generate_unique_code tape fuel w = Some (c, w') ->
  String.length c = String.length CODE_PREFIX + CODE_LENGTH
  /\ String.length c = 10
  /\ String.prefix CODE_PREFIX c = true
  /\ Py.all_from Py.is_upper_alnum (String.length CODE_PREFIX) c = true.
Proof.
  intros H. apply generate_unique_code_returns in H.
  destruct H as (_ & _ & _ & k & _ & _ & ->).
  destruct (candidate_format tape (rng_pos w' - CODE_LENGTH)) as (Hl & Hp & Ha).
  split; [exact Hl|]. split; [rewrite Hl; reflexivity|]. split; assumption.
Qed.

Lemma generated_code_format_witness :
  generate_unique_code tape_count 3 (world_one "@bob")
  = Some ("DCIJKLMNOP", advance (world_one "@bob") 8)
  /\ String.length "DCIJKLMNOP" = 10
  /\ String.prefix CODE_PREFIX "DCIJKLMNOP" = true.
Proof.
  split; [reflexivity|].
  pose proof (generated_code_format tape_count 3 (world_one "@bob")
                (advance (world_one "@bob") 8) "DCIJKLMNOP" eq_refl) as H.
  split; apply H.
Defined.

(** ** The table *)

Lemma select_by_code_app (c : string) (l1 l2 : list PromoCode) :
  Sql.select_by_code c (l1 ++ l2) =
  match Sql.select_by_code c l1 with
  | Some r => Some r
  | None => Sql.select_by_code c l2
  end.
Proof.
  unfold Sql.select_by_code. induction l1 as [|r l1 IH]; simpl.
  - reflexivity.
  - destruct (String.eqb (code r) c); [reflexivity | exact IH].
Qed.

Lemma select_by_code_some (c : string) (rows : list PromoCode) (r : PromoCode) :
  Sql.select_by_code c rows = Some r -> In r rows /\ code r = c.
Proof.
  intros H. apply find_some in H. destruct H as [Hin Heq].
  split; [exact Hin | now apply String.eqb_eq].
Qed.

Lemma select_by_code_none (c : string) (rows : list PromoCode) :
  Sql.select_by_code c rows = None <->
  (forall r, In r rows -> code r <> c).
Proof.
  unfold Sql.select_by_code. split.
  - intros H r Hin Heq. apply (find_none _ _ H) in Hin.
    apply String.eqb_neq in Hin. contradiction.
  - intros H. induction rows as [|r rows IH]; simpl; [reflexivity|].
    destruct (String.eqb_spec (code r) c) as [Heq|_].
    + exfalso. apply (H r); [now left | exact Heq].
    + apply IH. intros r' Hin. apply H. now right.
Qed.

(** After the [UPDATE], the row found under the updated code is the
    row found before with its three columns set. *)
Lemma select_after_update (c : string) (now : timestamp)
    (by_ : option string) (w : World) :
  Sql.select_by_code c (promo_codes (Sql.update_used c now by_ w)) =
  option_map (Sql.set_used now by_) (Sql.select_by_code c (promo_codes w)).
Proof.
  unfold Sql.select_by_code, Sql.update_used. cbn [promo_codes].
  induction (promo_codes w) as [|r rows IH]; simpl; [reflexivity|].
  destruct (String.eqb (code r) c) eqn:E; simpl; rewrite E.
  - reflexivity.
  - exact IH.
Qed.

(** The [UPDATE] leaves the rows under other codes where they are. *)
Lemma select_other_after_update (c c' : string) (now : timestamp)
    (by_ : option string) (w : World) :
  c' <> c ->
  Sql.select_by_code c' (promo_codes (Sql.update_used c now by_ w)) =
  Sql.select_by_code c' (promo_codes w).
Proof.
  intros Hne. unfold Sql.select_by_code, Sql.update_used. cbn [promo_codes].
  induction (promo_codes w) as [|r rows IH]; simpl; [reflexivity|].
  destruct (String.eqb_spec (code r) c) as [Hc|Hc]; simpl.
  - destruct (String.eqb_spec (code r) c') as [Hc'|_]; [congruence | exact IH].
  - destruct (String.eqb (code r) c'); [reflexivity | exact IH].
Qed.

(** ** Issuance *)

Section Issuance.

Variable tape : nat -> nat.

(** A successful attempt has added exactly the new row, under a code
    that the table did not hold, for a name that is not [None]. *)
Lemma attempt_created (env : AttemptEnv) (c : string)
    (user_name : option string) (w w' : World) :
  attempt env c user_name w = Created w' ->
  user_name <> None
  /\ Sql.select_by_code c (promo_codes w) = None
  /\ w' = {| promo_codes :=
               promo_codes w ++
               [Sql.new_row (last_id w + 1) c DISCOUNT_TEMPLATE
                            (now_created env) user_name (now_issued env)];
             last_id := last_id w + 1;
             rng_pos := rng_pos w |}.
Proof.
  unfold attempt, Sql.insert. intros H.
  destruct (raise_on_select env); [discriminate|].
  destruct (Sql.select_by_code c (promo_codes w)) eqn:E; [discriminate|].
  destruct (raise_on_insert env); [discriminate|].
  destruct user_name as [name|]; [|discriminate].
  injection H as <-. split; [discriminate|]. split; reflexivity.
Qed.

(** Every way out of the loop: either [(None, None)] with the table as
    it was, or a code with the discount template and exactly one new
    row, issued to the caller under that code. *)
Lemma create_loop_returns (fuel : nat) (user_name : option string)
    (env : nat -> AttemptEnv) (remaining attempts : nat) (w w' : World)
    (res : option string * option string) :
  create_loop tape fuel user_name env remaining attempts w = Some (res, w') ->
  (res = (None, None)
   /\ promo_codes w' = promo_codes w /\ last_id w' = last_id w)
  \/
  (exists c i,
      res = (Some c, Some DISCOUNT_TEMPLATE)
      /\ user_name <> None
      /\ Sql.select_by_code c (promo_codes w) = None
      /\ promo_codes w' =
         (promo_codes w ++
          [Sql.new_row (last_id w + 1) c DISCOUNT_TEMPLATE
                       (now_created (env i)) user_name (now_issued (env i))])%list
      /\ last_id w' = (last_id w + 1)%Z).
Proof.
  revert attempts w.
  induction remaining as [|remaining IH]; intros attempts w H.
  - cbn in H. injection H as <- <-. left. auto.
  - cbn [create_loop] in H.
    destruct (generate_unique_code tape fuel w) as [[c w1]|] eqn:G;
      [|discriminate].
    apply generate_unique_code_returns in G.
    destruct G as (Hr & Hl & Hs & _).
    assert (Hnext :
      create_loop tape fuel user_name env remaining (S attempts) w1
      = Some (res, w') ->
      (res = (None, None)
       /\ promo_codes w' = promo_codes w /\ last_id w' = last_id w)
      \/
      (exists c i,
          res = (Some c, Some DISCOUNT_TEMPLATE)
          /\ user_name <> None
          /\ Sql.select_by_code c (promo_codes w) = None
          /\ promo_codes w' =
             (promo_codes w ++
              [Sql.new_row (last_id w + 1) c DISCOUNT_TEMPLATE
                 (now_created (env i)) user_name (now_issued (env i))])%list
          /\ last_id w' = (last_id w + 1)%Z)).
    { intros H'. apply IH in H'. rewrite Hr, Hl in H'. exact H'. }
    destruct (attempt (env attempts) c user_name w1) as [|w2|e] eqn:A.
    + now apply Hnext.
    + injection H as <- <-. apply attempt_created in A.
      destruct A as (Hu & Hn & ->). cbn [promo_codes last_id].
      right. exists c, attempts. rewrite Hr, Hl in *. auto.
    + destruct (on_exception e).
      * now apply Hnext.
      * injection H as <- <-. left. auto.
Qed.

(** The same for the function itself. *)
Lemma create_returns (fuel : nat) (user_name : option string)
    (env : nat -> AttemptEnv) (w w' : World)
    (res : option string * option string) :
  create_promo_code_for_user tape fuel user_name env w = Some (res, w') ->
  (res = (None, None)
   /\ promo_codes w' = promo_codes w /\ last_id w' = last_id w)
  \/
  (exists c i,
      res = (Some c, Some DISCOUNT_TEMPLATE)
      /\ user_name <> None
      /\ Sql.select_by_code c (promo_codes w) = None
      /\ promo_codes w' =
         (promo_codes w ++
          [Sql.new_row (last_id w + 1) c DISCOUNT_TEMPLATE
                       (now_created (env i)) user_name (now_issued (env i))])%list
      /\ last_id w' = (last_id w + 1)%Z).
Proof.
  unfold create_promo_code_for_user. apply create_loop_returns.
Qed.

End Issuance.

(** ** Redemption *)

Lemma apply_check_rejections (c : string) (w : World) (m : string) :
  apply_check c w = Rejected m ->
  m = "Код не найден"
  \/ m = "Код не был выдан пользователю"
  \/ m = "Код уже использован".
Proof.
  unfold apply_check. intros H.
  destruct (Sql.select_by_code c (promo_codes w)) as [r|].
  - destruct (negb (Py.truthy_opt (issued_to r))).
    + injection H as <-. auto.
    + destruct (is_used r); [injection H as <-; auto | discriminate].
  - injection H as <-. auto.
Qed.

Lemma apply_rejected (c : string) (by_ : option string) (now : timestamp)
    (w w' : World) (m : string) :
  apply_promo_code c by_ now w = ((false, m), w') ->
  w' = w /\ apply_check c w = Rejected m.
Proof.
  unfold apply_promo_code, apply_write. intros H.
  destruct (apply_check c w) as [m'|d]; [|discriminate].
  injection H as <- <-. auto.
Qed.

Lemma apply_redeemable (c d : string) (by_ : option string) (now : timestamp)
    (w : World) :
  redeemable c d w ->
  apply_promo_code c by_ now w =
  ((true, applied_message c d), Sql.update_used c now by_ w).
Proof.
  intros (r & Hs & Ht & Hu & Hd).
  unfold apply_promo_code, apply_check, apply_write.
  now rewrite Hs, Ht, Hu, Hd.
Qed.

Lemma apply_after_update (c d : string) (by_ by' : option string)
    (now now' : timestamp) (w : World) :
  redeemable c d w ->
  apply_promo_code c by' now' (Sql.update_used c now by_ w) =
  ((false, "Код уже использован"), Sql.update_used c now by_ w)
  /\ exists r,
       Sql.select_by_code c (promo_codes (Sql.update_used c now by_ w)) = Some r
       /\ is_used r = true /\ used_at r = Some now /\ used_by r = by_.
Proof.
  intros (r & Hs & Ht & Hu & Hd).
  pose proof (select_after_update c now by_ w) as Hsel.
  rewrite Hs in Hsel. cbn [option_map] in Hsel.
  split.
  - unfold apply_promo_code, apply_check. rewrite Hsel.
    cbn [Sql.set_used issued_to is_used]. now rewrite Ht.
  - exists (Sql.set_used now by_ r). auto.
Qed.

Section Redemption.

Variable tape : nat -> nat.

(** A code just issued to a non-empty name is redeemable. *)
Lemma created_redeemable (fuel : nat) (name : string)
    (env : nat -> AttemptEnv) (w w1 : World) (c : string)
    (d : option string) :
  Py.truthy name = true ->
  create_promo_code_for_user tape fuel (Some name) env w
  = Some ((Some c, d), w1) ->
  d = Some DISCOUNT_TEMPLATE /\ redeemable c DISCOUNT_TEMPLATE w1.
Proof.
  intros Hname H. apply create_returns in H.
  destruct H as [(Hres & _) | (c' & i & Hres & _ & Hnone & Hrows & _)];
    [discriminate|].
  injection Hres as <- ->. split; [reflexivity|].
  eexists. rewrite Hrows, select_by_code_app, Hnone.
  unfold Sql.select_by_code. cbn [find Sql.new_row code].
  rewrite String.eqb_refl. cbn. auto.
Qed.

(** Requests that do not redeem [c] leave it redeemable. *)
Lemma handle_keeps_redeemable (fuel : nat) (c d : string) (q : request)
    (w w' : World) (r : response) :
  redeemable c d w ->
  redeems c q = false ->
  handle tape fuel q w = Some (r, w') ->
  redeemable c d w'.
Proof.
  intros (row & Hs & Ht & Hu & Hd) Hq H.
  destruct q as [status name env | c' by_ now]; cbn [handle] in H.
  - unfold button_handler_get_promo in H.
    destruct (is_subscribed status);
      [|injection H as _ <-; exists row; auto].
    destruct (has_user_received_code (Some name) w);
      [injection H as _ <-; exists row; auto|].
    destruct (create_promo_code_for_user tape fuel (Some name) env w)
      as [[res w1]|] eqn:C; [|discriminate].
    assert (Hw : w' = w1) by (destruct res as [[?|] ?]; now injection H).
    subst w1. exists row. apply create_returns in C.
    destruct C as [(_ & Hrows & _) | (? & ? & _ & _ & _ & Hrows & _)];
      rewrite Hrows; [auto|].
    rewrite select_by_code_app, Hs. auto.
  - cbn [redeems] in Hq. apply String.eqb_neq in Hq.
    unfold apply_promo_code, apply_write in H.
    destruct (apply_check c' w); injection H as _ <-.
    + exists row. auto.
    + exists row. rewrite select_other_after_update; auto.
Qed.

Lemma run_keeps_redeemable (fuel : nat) (c d : string) (qs : list request) :
  forall (w w' : World) (rs : list response),
    redeemable c d w ->
    forallb (fun q => negb (redeems c q)) qs = true ->
    run tape fuel qs w = Some (rs, w') ->
    redeemable c d w'.
Proof.
  induction qs as [|q qs IH]; intros w w' rs Hred Hqs H; cbn [run] in H.
  - now injection H as _ <-.
  - cbn [forallb] in Hqs. apply andb_prop in Hqs. destruct Hqs as [Hq Hqs].
    apply negb_true_iff in Hq.
    destruct (handle tape fuel q w) as [[r w1]|] eqn:Hh; [|discriminate].
    destruct (run tape fuel qs w1) as [[rs' w2]|] eqn:Hr; [|discriminate].
    injection H as _ <-.
    eapply IH; [|exact Hqs|exact Hr].
    eapply handle_keeps_redeemable; eauto.
Qed.

End Redemption.

(** C1, as amended. A code issued to a non-empty name, and not redeemed
    by the requests served since, is accepted by the first
    [apply_promo_code], which answers with the discount template and
    sets [used_at] and [used_by]; a second [apply_promo_code] on it
    answers that the code is already used and leaves the world, and so
    [used_at] and [used_by], as the first call set them. *)
Theorem redeem_single_use (tape : nat -> nat) (fuel fuel' : nat)
    (name : string) (env : nat -> AttemptEnv) (w w1 w2 : World)
    (c : string) (d : option string)
    (qs : list request) (rs : list response)
    (by1 by2 : option string) (now1 now2 : timestamp) :
  Py.truthy name = true ->
  create_promo_code_for_user tape fuel (Some name) env w
  = Some ((Some c, d), w1) ->
  run tape fuel' qs w1 = Some (rs, w2) ->
  forallb (fun q => negb (redeems c q)) qs = true ->
  d = Some DISCOUNT_TEMPLATE
  /\ apply_promo_code c by1 now1 w2 =
     ((true, applied_message c DISCOUNT_TEMPLATE),
      Sql.update_used c now1 by1 w2)
  /\ apply_promo_code c by2 now2 (Sql.update_used c now1 by1 w2) =
     ((false, "Код уже использован"), Sql.update_used c now1 by1 w2)
  /\ exists r,
       Sql.select_by_code c (promo_codes (Sql.update_used c now1 by1 w2))
       = Some r
       /\ is_used r = true /\ used_at r = Some now1 /\ used_by r = by1.
Proof.
  intros Hname Hc Hrun Hqs.
  destruct (created_redeemable tape fuel name env w w1 c d Hname Hc)
    as [Hd Hred].
  assert (Hred2 : redeemable c DISCOUNT_TEMPLATE w2)
    by (eapply run_keeps_redeemable; eauto).
  split; [exact Hd|]. split; [now apply apply_redeemable|].
  now apply apply_after_update with (d := DISCOUNT_TEMPLATE).
Qed.

Lemma redeem_single_use_witness :
  apply_promo_code "DCAAAAAAAA" (Some "@staff") 5 (world_one "@ann") =
  ((true, applied_message "DCAAAAAAAA" "10%"),
   Sql.update_used "DCAAAAAAAA" 5 (Some "@staff") (world_one "@ann"))
  /\ apply_promo_code "DCAAAAAAAA" (Some "@other") 6
       (Sql.update_used "DCAAAAAAAA" 5 (Some "@staff") (world_one "@ann")) =
     ((false, "Код уже использован"),
      Sql.update_used "DCAAAAAAAA" 5 (Some "@staff") (world_one "@ann")).
Proof.
  pose proof (redeem_single_use tape_zero 1 0 "@ann" all_quiet empty_world
                (world_one "@ann") (world_one "@ann") "DCAAAAAAAA"
                (Some "10%") [] [] (Some "@staff") (Some "@other") 5%Z 6%Z
                eq_refl eq_refl eq_refl eq_refl) as H.
  split; apply H.
Defined.

(** C1 as stated fails for a code issued to the empty name: the row is
    inserted, and the first [apply_promo_code] rejects it as not issued. *)
Lemma redeem_of_code_issued_to_empty_name :
  create_promo_code_for_user tape_zero 1 (Some "") all_quiet empty_world
  = Some ((Some "DCAAAAAAAA", Some "10%"), world_one "")
  /\ apply_promo_code "DCAAAAAAAA" (Some "@staff") 5 (world_one "")
     = ((false, "Код не был выдан пользователю"), world_one "").
Proof. split; reflexivity. Qed.

(** C6. [apply_promo_code] on a code that no row carries answers that
    the code is not found; and whenever [apply_promo_code] fails, with
    one of its three rejections, the world is the one it was called in. *)
Theorem failed_redeem_leaves_store :
  (forall (c : string) (by_ : option string) (now : timestamp) (w : World),
      (forall r, In r (promo_codes w) -> code r <> c) ->
      apply_promo_code c by_ now w = ((false, "Код не найден"), w))
  /\ (forall (c : string) (by_ : option string) (now : timestamp)
             (w w' : World) (m : string),
         apply_promo_code c by_ now w = ((false, m), w') ->
         w' = w
         /\ (m = "Код не найден"
             \/ m = "Код не был выдан пользователю"
             \/ m = "Код уже использован")).
Proof.
  split.
  - intros c by_ now w Habsent. apply select_by_code_none in Habsent.
    unfold apply_promo_code, apply_check. now rewrite Habsent.
  - intros c by_ now w w' m H. apply apply_rejected in H.
    destruct H as [-> Hc]. split; [reflexivity|].
    eapply apply_check_rejections; eauto.
Qed.

Lemma failed_redeem_leaves_store_witness :
  apply_promo_code "DCZZZZZZZZ" (Some "@staff") 5 (world_one "@ann")
  = ((false, "Код не найден"), world_one "@ann")
  /\ snd (apply_promo_code "DCAAAAAAAA" (Some "@staff") 5 (world_one ""))
     = world_one "".
Proof.
  destruct failed_redeem_leaves_store as [Hnf Hrej]. split.
  - apply Hnf. intros r [<-|[]]. discriminate.
  - destruct (Hrej "DCAAAAAAAA" (Some "@staff") 5%Z (world_one "")
                (world_one "") "Код не был выдан пользователю" eq_refl)
      as [_ _].
    reflexivity.
Defined.

(** ** The row invariant *)

Lemma new_row_consistent (i : Z) (c dv : string) (created issued : timestamp)
    (to : option string) :
  row_consistent (Sql.new_row i c dv created to issued) = true.
Proof. reflexivity. Qed.

Lemma set_used_consistent (now : timestamp) (by_ : string) (r : PromoCode) :
  row_consistent (Sql.set_used now (Some by_) r) = true.
Proof. reflexivity. Qed.

Lemma update_used_consistent (c : string) (now : timestamp) (by_ : string)
    (w : World) :
  table_consistent (promo_codes w) = true ->
  table_consistent (promo_codes (Sql.update_used c now (Some by_) w)) = true.
Proof.
  unfold table_consistent, Sql.update_used. cbn [promo_codes].
  induction (promo_codes w) as [|r rows IH]; cbn [map forallb];
    [reflexivity|].
  intros H. apply andb_prop in H. destruct H as [Hr Hrows].
  apply andb_true_intro. split; [|now apply IH].
  destruct (String.eqb (code r) c); [apply set_used_consistent | exact Hr].
Qed.

(** C3, as amended. [create_promo_code_for_user] keeps every row
    consistent ([is_used] true with [used_at] and [used_by] set, or
    false with both NULL), and so does [apply_promo_code] when it is
    given the name of who applies the code. *)
Theorem operations_keep_rows_consistent (tape : nat -> nat) (w : World) :
  table_consistent (promo_codes w) = true ->
  (forall (fuel : nat) (user_name : option string) (env : nat -> AttemptEnv)
          (res : option string * option string) (w' : World),
      create_promo_code_for_user tape fuel user_name env w = Some (res, w') ->
      table_consistent (promo_codes w') = true)
  /\ (forall (c by_ : string) (now : timestamp),
         table_consistent
           (promo_codes (snd (apply_promo_code c (Some by_) now w))) = true).
Proof.
  intros Hw. split.
  - intros fuel user_name env res w' H. apply create_returns in H.
    destruct H as [(_ & Hrows & _) | (c & i & _ & _ & _ & Hrows & _)];
      rewrite Hrows; [exact Hw|].
    unfold table_consistent in *. rewrite forallb_app, Hw.
    cbn [forallb]. now rewrite new_row_consistent.
  - intros c by_ now. unfold apply_promo_code, apply_write.
    destruct (apply_check c w); cbn [snd]; [exact Hw|].
    now apply update_used_consistent.
Qed.

Lemma operations_keep_rows_consistent_witness :
  table_consistent
    (promo_codes
       (snd (apply_promo_code "DCAAAAAAAA" (Some "@staff") 5
                              (world_one "@ann")))) = true.
Proof.
  destruct (operations_keep_rows_consistent tape_zero (world_one "@ann")
              eq_refl) as [_ H].
  apply H.
Defined.

(** C3 as stated fails when [apply_promo_code] is called without
    [applied_by_user_id]: the row becomes used with [used_by] NULL. *)
Lemma apply_without_name_breaks_row_invariant :
  table_consistent (promo_codes (world_one "@ann")) = true
  /\ fst (apply_promo_code "DCAAAAAAAA" None 5 (world_one "@ann"))
     = (true, applied_message "DCAAAAAAAA" "10%")
  /\ table_consistent
       (promo_codes
          (snd (apply_promo_code "DCAAAAAAAA" None 5 (world_one "@ann"))))
     = false.
Proof. split; [|split]; reflexivity. Qed.

(** ** The retry policy of issuance *)

Lemma on_exception_spec (e : exn) :
  on_exception e =
  if is_uniqueness_violation e then TryAgain else GiveUp.
Proof.
  destruct e as [msg|msg]; cbn [on_exception is_uniqueness_violation].
  - destruct (Py.contains "UNIQUE constraint failed: promo_codes.code" msg);
      [reflexivity|].
    now destruct (Py.contains "NOT NULL constraint failed" msg).
  - reflexivity.
Qed.

Section Retry.

Variable tape : nat -> nat.
Variable fuel : nat.
Variable user_name : option string.
Variable env : nat -> AttemptEnv.

Lemma generator_returns_some (w : World) :
  generator_returns tape fuel (promo_codes w) ->
  exists c w1, generate_unique_code tape fuel w = Some (c, w1).
Proof.
  intros H. destruct w as [rows lid pos]. cbn [promo_codes] in H.
  specialize (H lid pos).
  destruct (generate_unique_code tape fuel
              {| promo_codes := rows; last_id := lid; rng_pos := pos |})
    as [[c w1]|]; [eauto | contradiction].
Qed.

(** When the store rejects every [INSERT] as a duplicate, the loop runs
    its remaining iterations and leaves with [(None, None)]. *)
Lemma create_loop_exhausts (remaining : nat) :
  forall (attempts : nat) (w : World),
    generator_returns tape fuel (promo_codes w) ->
    (forall i, attempts <= i < attempts + remaining ->
               insert_rejected_as_duplicate (env i)) ->
    exists w',
      create_loop tape fuel user_name env remaining attempts w
      = Some ((None, None), w')
      /\ promo_codes w' = promo_codes w /\ last_id w' = last_id w.
Proof.
  induction remaining as [|remaining IH]; intros attempts w Hgen Henv.
  - exists w. cbn. auto.
  - destruct (generator_returns_some w Hgen) as (c & w1 & G).
    cbn [create_loop]. rewrite G.
    apply generate_unique_code_returns in G.
    destruct G as (Hr & Hl & Hs & _).
    destruct (Henv attempts ltac:(lia)) as (Hsel & e & Hins & He).
    unfold attempt. rewrite Hsel, Hr, Hs, Hins, on_exception_spec, He.
    destruct (IH (S attempts) w1) as (w' & Hloop & Hr' & Hl').
    + now rewrite Hr.
    + intros i Hi. apply Henv. lia.
    + exists w'. rewrite Hloop, Hr', Hl', Hr, Hl. auto.
Qed.

(** When every call of the generator returns, so does the loop, and it
    has drawn at most [fuel] candidates in each of its iterations. *)
Lemma create_loop_terminates (remaining : nat) :
  forall (attempts : nat) (w : World),
    generator_returns tape fuel (promo_codes w) ->
    exists res w',
      create_loop tape fuel user_name env remaining attempts w
      = Some (res, w')
      /\ rng_pos w <= rng_pos w'
      /\ rng_pos w' <= rng_pos w + CODE_LENGTH * (fuel * remaining).
Proof.
  induction remaining as [|remaining IH]; intros attempts w Hgen.
  - exists (None, None), w. cbn [create_loop]. split; [reflexivity | lia].
  - destruct (generator_returns_some w Hgen) as (c & w1 & G).
    cbn [create_loop]. rewrite G.
    apply generate_unique_code_returns in G.
    destruct G as (Hr & Hl & Hs & k & Hk & Hp & _).
    assert (Hk' : CODE_LENGTH * k + CODE_LENGTH * (fuel * remaining)
                  <= CODE_LENGTH * (fuel * S remaining))
      by (unfold CODE_LENGTH; nia).
    assert (Hnext : exists res w',
      create_loop tape fuel user_name env remaining (S attempts) w1
      = Some (res, w')
      /\ rng_pos w <= rng_pos w'
      /\ rng_pos w' <= rng_pos w + CODE_LENGTH * (fuel * S remaining)).
    { destruct (IH (S attempts) w1) as (res & w' & Hloop & Hlo & Hhi);
        [now rewrite Hr|].
      exists res, w'. split; [exact Hloop | lia]. }
    destruct (attempt (env attempts) c user_name w1) as [|w2|e] eqn:A.
    + exact Hnext.
    + apply attempt_created in A. destruct A as (_ & _ & ->).
      eexists _, _. split; [reflexivity|]. cbn [rng_pos]. lia.
    + destruct (on_exception e); [exact Hnext|].
      eexists _, _. split; [reflexivity | lia].
Qed.

End Retry.

(** C4. If the store rejects the [INSERT] of each of the 10 attempts
    with a uniqueness violation, [create_promo_code_for_user] returns
    [(None, None)] and the table is the one it started with. *)
Theorem exhausted_attempts_report_failure (tape : nat -> nat) (fuel : nat)
    (user_name : option string) (env : nat -> AttemptEnv) (w : World) :
  generator_returns tape fuel (promo_codes w) ->
  (forall i, i < 10 -> insert_rejected_as_duplicate (env i)) ->
  exists w',
    create_promo_code_for_user tape fuel user_name env w
    = Some ((None, None), w')
    /\ promo_codes w' = promo_codes w
    /\ last_id w' = last_id w.
Proof.
  intros Hgen Henv. unfold create_promo_code_for_user.
  apply create_loop_exhausts; [exact Hgen|].
  intros i Hi. apply Henv. unfold MAX_ATTEMPTS in Hi. lia.
Qed.

Lemma exhausted_attempts_report_failure_witness :
  exists w',
    create_promo_code_for_user tape_count 1 (Some "@ann")
                               always_unique_failed empty_world
    = Some ((None, None), w')
    /\ promo_codes w' = []
    /\ last_id w' = 0%Z.
Proof.
  apply (exhausted_attempts_report_failure tape_count 1 (Some "@ann")
           always_unique_failed empty_world).
  - intros lid pos. cbn [generate_unique_code promo_codes advance
                         Sql.select_by_code find]. discriminate.
  - intros i _. split; [reflexivity|].
    exists (IntegrityError Sql.unique_failed). split; reflexivity.
Defined.

(** C5. In an iteration of the loop, whatever the number of attempts
    left, an exception that is not a uniqueness violation (a NOT NULL
    violation, another integrity error, any other exception) ends the
    call at once with [(None, None)] and the table untouched; a
    uniqueness violation, and only that, sends the loop to its next
    attempt. *)
Theorem fatal_failure_aborts (tape : nat -> nat) (fuel : nat)
    (user_name : option string) (env : nat -> AttemptEnv)
    (remaining attempts : nat) (w w1 : World) (c : string) (e : exn) :
  generate_unique_code tape fuel w = Some (c, w1) ->
  attempt (env attempts) c user_name w1 = Raised e ->
  promo_codes w1 = promo_codes w
  /\ (is_uniqueness_violation e = false ->
      create_loop tape fuel user_name env (S remaining) attempts w
      = Some ((None, None), w1))
  /\ (is_uniqueness_violation e = true ->
      create_loop tape fuel user_name env (S remaining) attempts w
      = create_loop tape fuel user_name env remaining (S attempts) w1).
Proof.
  intros G A. split; [now apply generate_unique_code_returns in G|].
  split; intros He; cbn [create_loop];
    now rewrite G, A, on_exception_spec, He.
Qed.

Lemma fatal_failure_aborts_witness :
  create_loop tape_count 1 None all_quiet 7 3 empty_world
  = Some ((None, None), advance empty_world 8).
Proof.
  apply (fatal_failure_aborts tape_count 1 None all_quiet 6 3 empty_world
           (advance empty_world 8) "DCABCDEFGH"
           (IntegrityError Sql.not_null_failed) eq_refl eq_refl).
  reflexivity.
Defined.

(** ** Termination of issuance *)

Lemma candidate_tape_zero (pos : nat) :
  candidate tape_zero pos = "DCAAAAAAAA".
Proof. reflexivity. Qed.

(** Over a table that holds every candidate of the tape, the generator
    does not return, whatever the fuel. *)
Lemma generator_stuck_when_all_taken (tape : nat -> nat)
    (rows : list PromoCode) (fuel : nat) :
  (forall pos, Sql.select_by_code (candidate tape pos) rows <> None) ->
  forall w : World,
    promo_codes w = rows ->
    generate_unique_code tape fuel w = None.
Proof.
  intros Htaken.
  induction fuel as [|fuel IH]; intros w Hw; [reflexivity|].
  cbn [generate_unique_code advance promo_codes]. rewrite Hw.
  specialize (Htaken (rng_pos w)).
  destruct (Sql.select_by_code (candidate tape (rng_pos w)) rows);
    [|contradiction].
  apply IH. exact Hw.
Qed.

Lemma generator_stuck_on_tape_zero (fuel : nat) (w : World) :
  promo_codes w = [row_AAAAAAAA "@bob"] ->
  generate_unique_code tape_zero fuel w = None.
Proof.
  apply generator_stuck_when_all_taken.
  intros pos. rewrite candidate_tape_zero. discriminate.
Qed.

(** C9, as amended. One call of [create_promo_code_for_user] calls the
    generator at most [MAX_ATTEMPTS] times; the generator has no bound
    of its own, so the call returns when each call of the generator
    does, and then, if the generator needs at most [fuel] draws each
    time, after at most [MAX_ATTEMPTS * fuel] draws in all. *)
Theorem issue_returns_when_generator_does (tape : nat -> nat) (fuel : nat)
    (user_name : option string) (env : nat -> AttemptEnv) (w : World) :
  generator_returns tape fuel (promo_codes w) ->
  exists res w',
    create_promo_code_for_user tape fuel user_name env w = Some (res, w')
    /\ rng_pos w <= rng_pos w'
    /\ rng_pos w' <= rng_pos w + CODE_LENGTH * (fuel * MAX_ATTEMPTS).
Proof.
  intros Hgen. unfold create_promo_code_for_user.
  now apply create_loop_terminates.
Qed.

Lemma issue_returns_when_generator_does_witness :
  exists res w',
    create_promo_code_for_user tape_count 1 (Some "@ann")
                               always_unique_failed empty_world
    = Some (res, w')
    /\ rng_pos empty_world <= rng_pos w'
    /\ rng_pos w' <= rng_pos empty_world + CODE_LENGTH * (1 * MAX_ATTEMPTS).
Proof.
  apply (issue_returns_when_generator_does tape_count 1 (Some "@ann")
           always_unique_failed empty_world).
  intros lid pos. cbn [generate_unique_code promo_codes advance
                       Sql.select_by_code find]. discriminate.
Defined.

(** C9 as stated fails: with one code in the table, a single call
    draws 12 candidates on a tape that repeats that code 11 times, and
    never returns on a tape that repeats it for ever. *)
Lemma draws_not_bounded_by_attempts :
  create_promo_code_for_user tape_late 12 (Some "@ann") all_quiet
                             (world_one "@bob")
  = Some ((Some "DCBBBBBBBB", Some "10%"),
          {| promo_codes :=
               [row_AAAAAAAA "@bob";
                Sql.new_row 2 "DCBBBBBBBB" "10%" t0 (Some "@ann") t0];
             last_id := 2;
             rng_pos := 8 + CODE_LENGTH * 12 |})
  /\ (forall fuel,
         create_promo_code_for_user tape_late fuel (Some "@ann") all_quiet
                                    (world_one "@bob") <> None ->
         12 <= fuel)
  /\ (forall fuel,
         create_promo_code_for_user tape_zero fuel (Some "@ann") all_quiet
                                    (world_one "@bob") = None).
Proof.
  split; [vm_compute; reflexivity|]. split.
  - intros fuel H.
    destruct (Nat.le_gt_cases 12 fuel) as [Hle|Hlt]; [exact Hle|].
    exfalso. apply H.
    do 12 (destruct fuel as [|fuel]; [vm_compute; reflexivity|]). lia.
  - intros fuel. unfold create_promo_code_for_user, MAX_ATTEMPTS.
    cbn [create_loop].
    now rewrite generator_stuck_on_tape_zero.
Qed.

(** ** Two redemptions of one code *)

(** A call that takes its two steps undisturbed is [apply_promo_code]. *)
Lemma step_call_twice (c : string) (by_ : option string) (now : timestamp)
    (w : World) :
  let '(k1, w1) := step_call (start c by_ now) w in
  let '(k2, w2) := step_call k1 w1 in
  (call_at k2, w2) =
  (Returned (fst (apply_promo_code c by_ now w)),
   snd (apply_promo_code c by_ now w)).
Proof.
  unfold step_call, start, apply_promo_code.
  cbn [call_at call_code call_by call_now].
  destruct (apply_check c w); reflexivity.
Qed.

(** One call after the other: the first is accepted, the second is told
    that the code is already used. *)
Lemma redeem_one_after_the_other (c d : string) (by1 by2 : option string)
    (now1 now2 : timestamp) (w : World) :
  redeemable c d w ->
  interleave [First; First; Second; Second]
             (start c by1 now1) (start c by2 now2) w =
  (at_ (start c by1 now1) (Returned (true, applied_message c d)),
   at_ (start c by2 now2) (Returned (false, "Код уже использован")),
   Sql.update_used c now1 by1 w).
Proof.
  intros (r & Hs & Ht & Hu & Hd).
  pose proof (select_after_update c now1 by1 w) as Hsel.
  rewrite Hs in Hsel. cbn [option_map] in Hsel.
  cbn [interleave step_call start call_at call_code call_by call_now at_].
  unfold apply_check at 1. rewrite Hs, Ht, Hu, Hd.
  cbn [negb step_call start call_at call_code call_by call_now at_
       apply_write].
  unfold apply_check. rewrite Hsel.
  cbn [Sql.set_used issued_to is_used]. rewrite Ht.
  reflexivity.
Qed.

(** Both calls read before either writes: both are accepted, and the
    second write replaces what the first one recorded. *)
Lemma redeem_reads_before_writes (c d : string) (by1 by2 : option string)
    (now1 now2 : timestamp) (w : World) :
  redeemable c d w ->
  interleave [First; Second; First; Second]
             (start c by1 now1) (start c by2 now2) w =
  (at_ (start c by1 now1) (Returned (true, applied_message c d)),
   at_ (start c by2 now2) (Returned (true, applied_message c d)),
   Sql.update_used c now2 by2 (Sql.update_used c now1 by1 w)).
Proof.
  intros (r & Hs & Ht & Hu & Hd).
  cbn [interleave step_call start call_at call_code call_by call_now at_].
  unfold apply_check. rewrite Hs, Ht, Hu, Hd.
  cbn [negb step_call start call_at call_code call_by call_now at_
       apply_write].
  unfold apply_check. rewrite Hs, Ht, Hu, Hd.
  reflexivity.
Qed.


(** ** One code per identity *)

Lemma find_none_filter {A : Type} (f : A -> bool) (l : list A) :
  find f l = None <-> filter f l = [].
Proof.
  induction l as [|a l IH]; cbn [find filter]; [tauto|].
  destruct (f a); [split; discriminate | exact IH].
Qed.

Lemma has_user_received_code_count (u : string) (w : World) :
  has_user_received_code (Some u) w = true <-> 1 <= issued_count u w.
Proof.
  unfold has_user_received_code, Sql.select_by_issued_to, issued_count,
    rows_of.
  destruct (find (fun r => Sql.eq_param (issued_to r) (Some u))
                 (promo_codes w)) as [r|] eqn:E.
  - split; [intros _|reflexivity].
    destruct (filter (fun r => Sql.eq_param (issued_to r) (Some u))
                     (promo_codes w)) eqn:F; [|cbn; lia].
    apply find_none_filter in F. congruence.
  - apply find_none_filter in E. rewrite E. cbn. split; [discriminate|lia].
Qed.

Lemma issued_count_update (u c : string) (now : timestamp)
    (by_ : option string) (w : World) :
  issued_count u (Sql.update_used c now by_ w) = issued_count u w.
Proof.
  unfold issued_count, rows_of, Sql.update_used. cbn [promo_codes].
  induction (promo_codes w) as [|r rows IH]; cbn [map filter]; [reflexivity|].
  assert (E : Sql.eq_param
                (issued_to (if String.eqb (code r) c
                            then Sql.set_used now by_ r else r)) (Some u)
              = Sql.eq_param (issued_to r) (Some u))
    by (destruct (String.eqb (code r) c); reflexivity).
  rewrite E.
  destruct (Sql.eq_param (issued_to r) (Some u)); cbn [length]; now rewrite IH.
Qed.

Section Identity.

Variable tape : nat -> nat.

(** What [get_promo] does to the rows of [u]: it sends a code to [name]
    and adds a row for [name], which had none, or it adds nothing. *)
Lemma get_promo_count (fuel : nat) (status name : string)
    (env : nat -> AttemptEnv) (w w' : World) (r : promo_reply) (u : string) :
  button_handler_get_promo tape fuel status name env w = Some (r, w') ->
  (issued_count u w' = issued_count u w
   /\ (forall c d, r = CodeSent c d -> u <> name))
  \/ (issued_count u w = 0 /\ issued_count u w' = 1
      /\ u = name /\ exists c d, r = CodeSent c d).
Proof.
  unfold button_handler_get_promo. intros H.
  destruct (is_subscribed status);
    [|injection H as <- <-; left; split; [reflexivity | discriminate]].
  destruct (has_user_received_code (Some name) w) eqn:Hrec;
    [injection H as <- <-; left; split; [reflexivity | discriminate]|].
  destruct (create_promo_code_for_user tape fuel (Some name) env w)
    as [[res w1]|] eqn:C; [|discriminate].
  apply create_returns in C.
  destruct C as [(-> & Hrows & _) | (c & i & -> & _ & _ & Hrows & _)].
  - injection H as <- <-. left. unfold issued_count. rewrite Hrows.
    split; [reflexivity | discriminate].
  - injection H as <- <-. unfold issued_count, rows_of. rewrite Hrows.
    rewrite filter_app, length_app. cbn [filter Sql.new_row issued_to].
    cbn [Sql.eq_param].
    destruct (String.eqb_spec name u) as [->|Hne].
    + right. cbn [length].
      assert (H0 : issued_count u w = 0).
      { destruct (issued_count u w) eqn:E; [reflexivity|].
        assert (Hge : 1 <= issued_count u w) by lia.
        apply has_user_received_code_count in Hge. congruence. }
      unfold issued_count, rows_of in H0. rewrite H0.
      split; [reflexivity|]. split; [reflexivity|]. split; eauto.
    + left. cbn [length]. split; [lia|]. intros _ _ _. congruence.
Qed.

(** No request removes a row of [u], and none adds a second one. *)
Lemma handle_count (fuel : nat) (q : request) (w w' : World) (r : response)
    (u : string) :
  handle tape fuel q w = Some (r, w') ->
  issued_count u w' = issued_count u w
  \/ (issued_count u w = 0 /\ issued_count u w' = 1).
Proof.
  destruct q as [status name env | c by_ now]; cbn [handle]; intros H.
  - destruct (button_handler_get_promo tape fuel status name env w)
      as [[pr w1]|] eqn:B; [|discriminate].
    injection H as _ <-.
    destruct (get_promo_count fuel status name env w w1 pr u B)
      as [[Heq _] | (H0 & H1 & _)]; auto.
  - unfold apply_promo_code, apply_write in H.
    destruct (apply_check c w); injection H as _ <-; left;
      [reflexivity | apply issued_count_update].
Qed.

Lemma run_count (fuel : nat) (qs : list request) (u : string) :
  forall (w w' : World) (rs : list response),
    run tape fuel qs w = Some (rs, w') ->
    issued_count u w <= issued_count u w'
    /\ (issued_count u w <= 1 -> issued_count u w' <= 1).
Proof.
  induction qs as [|q qs IH]; intros w w' rs H; cbn [run] in H.
  - injection H as _ <-. split; [lia | auto].
  - destruct (handle tape fuel q w) as [[r w1]|] eqn:Hh; [|discriminate].
    destruct (run tape fuel qs w1) as [[rs' w2]|] eqn:Hr; [|discriminate].
    injection H as _ <-.
    destruct (IH _ _ _ Hr) as [Hmono Hone].
    destruct (handle_count fuel q w w1 r u Hh) as [Heq | [H0 H1]]; lia.
Qed.

End Identity.

(** C2. Once [get_promo] has sent a code to a name, every later
    [get_promo] for that name, whatever was served in between, answers
    that the code was already received (or, to one who has left the
    channel, to subscribe first) and leaves the world as it is;
    and in a table in which no name has two rows, no sequence of
    requests gives a name a second row. *)
Theorem one_code_per_identity (tape : nat -> nat) :
  (forall (fuel fuel' fuel'' : nat) (status status' name : string)
          (env env' : nat -> AttemptEnv) (w w1 w2 : World) (c d : string)
          (qs : list request) (rs : list response),
      button_handler_get_promo tape fuel status name env w
      = Some (CodeSent c d, w1) ->
      run tape fuel' qs w1 = Some (rs, w2) ->
      button_handler_get_promo tape fuel'' status' name env' w2
      = Some (if is_subscribed status'
              then AlreadyReceived else SubscribeFirst, w2))
  /\ (forall (fuel : nat) (qs : list request) (rs : list response)
             (w w' : World),
         (forall name, issued_count name w <= 1) ->
         run tape fuel qs w = Some (rs, w') ->
         forall name, issued_count name w' <= 1).
Proof.
  split.
  - intros fuel fuel' fuel'' status status' name env env' w w1 w2 c d qs rs
           Hsent Hrun.
    destruct (get_promo_count tape fuel status name env w w1 _ name Hsent)
      as [[_ Hne] | (_ & H1 & _)];
      [exfalso; now apply (Hne c d)|].
    destruct (run_count tape fuel' qs name w1 w2 rs Hrun) as [Hmono _].
    assert (Hrec : has_user_received_code (Some name) w2 = true)
      by (apply has_user_received_code_count; lia).
    unfold button_handler_get_promo. rewrite Hrec.
    now destruct (is_subscribed status').
  - intros fuel qs rs w w' Hw Hrun name.
    now apply (run_count tape fuel qs name w w' rs Hrun).
Qed.

Lemma one_code_per_identity_witness :
  button_handler_get_promo tape_count 1 "member" "@ann" all_quiet world_ann
  = Some (AlreadyReceived, world_ann)
  /\ forall name w' rs,
       run tape_count 1 asked_twice empty_world = Some (rs, w') ->
       issued_count name w' <= 1.
Proof.
  destruct (one_code_per_identity tape_count) as [Hagain Hone]. split.
  - apply (Hagain 1 0 1 "member" "member" "@ann" all_quiet all_quiet
             empty_world world_ann world_ann "DCABCDEFGH" "10%" [] []);
      reflexivity.
  - intros name w' rs Hrun.
    apply (Hone 1 asked_twice rs empty_world w'); [|exact Hrun].
    intros name'. cbn. lia.
Defined.

(** ** Statistics *)

Lemma apply_check_passed (c d : string) (w : World) :
  apply_check c w = Passed d -> redeemable c d w.
Proof.
  unfold apply_check, redeemable. intros H.
  destruct (Sql.select_by_code c (promo_codes w)) as [r|]; [|discriminate].
  destruct (Py.truthy_opt (issued_to r)) eqn:Ht; [|discriminate].
  destruct (is_used r) eqn:Hu; [discriminate|].
  injection H as <-. exists r. auto.
Qed.

Lemma update_codes (c : string) (now : timestamp) (by_ : option string)
    (rows : list PromoCode) :
  map code
      (map (fun r => if String.eqb (code r) c
                     then Sql.set_used now by_ r else r) rows)
  = map code rows.
Proof.
  rewrite map_map. apply map_ext. intros r.
  now destruct (String.eqb (code r) c).
Qed.

Lemma update_absent (c : string) (now : timestamp) (by_ : option string)
    (rows : list PromoCode) :
  ~ In c (map code rows) ->
  map (fun r => if String.eqb (code r) c then Sql.set_used now by_ r else r)
      rows = rows.
Proof.
  induction rows as [|r rows IH]; cbn [map]; intros H; [reflexivity|].
  destruct (String.eqb_spec (code r) c) as [Heq|_].
  - exfalso. apply H. now left.
  - rewrite IH; [reflexivity|]. intros Hin. apply H. now right.
Qed.

(** The [UPDATE] of an unused row under a unique code makes exactly one
    more row used. *)
Lemma update_used_count (c : string) (now : timestamp) (by_ : option string)
    (rows : list PromoCode) (r : PromoCode) :
  NoDup (map code rows) ->
  Sql.select_by_code c rows = Some r ->
  is_used r = false ->
  length (filter is_used
            (map (fun r => if String.eqb (code r) c
                           then Sql.set_used now by_ r else r) rows))
  = S (length (filter is_used rows)).
Proof.
  unfold Sql.select_by_code.
  induction rows as [|r0 rows IH]; cbn [map find filter];
    intros Hnd Hs Hu; [discriminate|].
  inversion Hnd as [|x l Hnotin Hnd']; subst.
  destruct (String.eqb_spec (code r0) c) as [Heq|Hne].
  - injection Hs as ->. rewrite Hu. subst c.
    rewrite update_absent by exact Hnotin. reflexivity.
  - destruct (is_used r0); cbn [length]; now rewrite IH.
Qed.

Lemma update_issued (c : string) (now : timestamp) (by_ : option string)
    (rows : list PromoCode) :
  forallb (fun r => is_not_null (issued_to r))
          (map (fun r => if String.eqb (code r) c
                         then Sql.set_used now by_ r else r) rows)
  = forallb (fun r => is_not_null (issued_to r)) rows.
Proof.
  induction rows as [|r rows IH]; cbn [map forallb]; [reflexivity|].
  rewrite IH. now destruct (String.eqb (code r) c).
Qed.

Section Counting.

Variable tape : nat -> nat.

(** Each request keeps the schema, adds one row exactly when it sends a
    code, and makes one more row used exactly when it applies one. *)
Lemma handle_counts (fuel : nat) (q : request) (w w' : World) (r : response) :
  schema_ok (promo_codes w) ->
  handle tape fuel q w = Some (r, w') ->
  schema_ok (promo_codes w')
  /\ length (promo_codes w') = length (promo_codes w) + b2n (is_code_sent r)
  /\ length (filter is_used (promo_codes w'))
     = length (filter is_used (promo_codes w)) + b2n (is_applied r).
Proof.
  intros [Hnd Hiss] H.
  destruct q as [status name env | c by_ now]; cbn [handle] in H.
  - unfold button_handler_get_promo in H.
    destruct (is_subscribed status);
      [|injection H as <- <-; cbn [is_code_sent is_applied b2n];
        split; [split; assumption | lia]].
    destruct (has_user_received_code (Some name) w);
      [injection H as <- <-; cbn [is_code_sent is_applied b2n];
       split; [split; assumption | lia]|].
    destruct (create_promo_code_for_user tape fuel (Some name) env w)
      as [[res w1]|] eqn:C; [|discriminate].
    apply create_returns in C.
    destruct C as [(-> & Hrows & _) | (c & i & -> & _ & Hnone & Hrows & _)];
      injection H as <- <-; rewrite Hrows;
      cbn [is_code_sent is_applied b2n].
    + split; [split; assumption | lia].
    + split; [split|].
      * rewrite map_app. cbn [map Sql.new_row code].
        apply NoDup_app; [exact Hnd | repeat constructor; intros [] | ].
        intros x Hx [<-|[]]. apply in_map_iff in Hx.
        destruct Hx as (r0 & Hc & Hin).
        now apply (proj1 (select_by_code_none c (promo_codes w)) Hnone r0).
      * rewrite forallb_app, Hiss. reflexivity.
      * rewrite length_app, filter_app, length_app.
        cbn [length filter Sql.new_row is_used]. lia.
  - unfold apply_promo_code, apply_write in H.
    destruct (apply_check c w) as [m|d] eqn:Hc; injection H as <- <-;
      cbn [is_code_sent is_applied b2n].
    + split; [split; assumption | lia].
    + apply apply_check_passed in Hc. destruct Hc as (r0 & Hs & _ & Hu & _).
      unfold Sql.update_used. cbn [promo_codes]. split; [split|].
      * now rewrite update_codes.
      * now rewrite update_issued.
      * rewrite length_map.
        rewrite (update_used_count c now by_ _ r0 Hnd Hs Hu). lia.
Qed.


End Counting.



(** * Further properties of the code *)

(** ** The generator and issuance *)

(** X1. [generate_unique_code] only reads the table, and the code it returns
    is carried by no row; it has drawn between 1 and [fuel] candidates
    of [CODE_LENGTH] draws each. *)
Theorem generator_returns_fresh_code (tape : nat -> nat) (fuel : nat)
    (w w' : World) (c : string) :
  generate_unique_code tape fuel w = Some (c, w') ->
  promo_codes w' = promo_codes w
  /\ last_id w' = last_id w
  /\ (forall r, In r (promo_codes w) -> code r <> c)
  /\ exists k, 1 <= k <= fuel /\ rng_pos w' = rng_pos w + CODE_LENGTH * k.
Proof.
  intros H. apply generate_unique_code_returns in H.
  destruct H as (Hr & Hl & Hs & k & Hk & Hp & _).
  split; [exact Hr|]. split; [exact Hl|].
  split; [now apply select_by_code_none | eauto].
Qed.

Lemma generator_returns_fresh_code_witness :
  promo_codes (advance (world_one "@bob") 8) = promo_codes (world_one "@bob")
  /\ code (row_AAAAAAAA "@bob") <> "DCIJKLMNOP".
Proof.
  destruct (generator_returns_fresh_code tape_count 3 (world_one "@bob")
              (advance (world_one "@bob") 8) "DCIJKLMNOP" eq_refl)
    as (Hr & _ & Hfresh & _).
  split; [exact Hr|]. apply Hfresh. now left.
Defined.

(** X2. [create_promo_code_for_user] either returns [(None, None)] and
    leaves the table as it was, or returns a code with the discount
    template and has appended exactly one row: unused, under that code,
    which no earlier row carried, issued to the user, with the next id. *)
Theorem issuance_adds_exactly_one_row (tape : nat -> nat) (fuel : nat)
    (user_name : option string) (env : nat -> AttemptEnv) (w w' : World)
    (res : option string * option string) :
  create_promo_code_for_user tape fuel user_name env w = Some (res, w') ->
  (res = (None, None) /\ promo_codes w' = promo_codes w)
  \/ (exists c row,
         res = (Some c, Some DISCOUNT_TEMPLATE)
         /\ promo_codes w' = (promo_codes w ++ [row])%list
         /\ (forall r, In r (promo_codes w) -> code r <> c)
         /\ code row = c
         /\ discount_value row = DISCOUNT_TEMPLATE
         /\ id row = (last_id w + 1)%Z
         /\ issued_to row = user_name /\ user_name <> None
         /\ is_used row = false
         /\ used_at row = None /\ used_by row = None).
Proof.
  intros H. apply create_returns in H.
  destruct H as [(Hres & Hrows & _) | (c & i & Hres & Hu & Hnone & Hrows & _)].
  - left. auto.
  - right. eexists c, _. split; [exact Hres|]. split; [exact Hrows|].
    split; [now apply select_by_code_none|].
    cbn [Sql.new_row code discount_value id issued_to is_used used_at used_by].
    auto 12.
Qed.

Lemma issuance_adds_exactly_one_row_witness :
  exists c row,
    (Some "DCAAAAAAAA", Some "10%") = (Some c, Some DISCOUNT_TEMPLATE)
    /\ promo_codes (world_one "@ann") = ([] ++ [row])%list
    /\ issued_to row = Some "@ann".
Proof.
  destruct (issuance_adds_exactly_one_row tape_zero 1 (Some "@ann") all_quiet
              empty_world (world_one "@ann")
              (Some "DCAAAAAAAA", Some "10%") eq_refl)
    as [[Hres _] | (c & row & Hres & Hrows & _ & _ & _ & _ & Hto & _)].
  - discriminate.
  - exists c, row. auto.
Defined.

Section FirstAttempt.

Variable tape : nat -> nat.
Variable fuel : nat.
Variable env : nat -> AttemptEnv.

Lemma create_first_attempt (user_name : option string) (w w1 : World)
    (c : string) :
  generate_unique_code tape fuel w = Some (c, w1) ->
  raise_on_select (env 0) = None ->
  raise_on_insert (env 0) = None ->
  create_promo_code_for_user tape fuel user_name env w =
  match Sql.insert c DISCOUNT_TEMPLATE (now_created (env 0)) user_name
                   (now_issued (env 0)) w1 with
  | inr w2 => Some ((Some c, Some DISCOUNT_TEMPLATE), w2)
  | inl e =>
      match on_exception e with
      | TryAgain =>
          create_loop tape fuel user_name env (MAX_ATTEMPTS - 1) 1 w1
      | GiveUp => Some ((None, None), w1)
      end
  end.
Proof.
  intros G Hsel Hins.
  unfold create_promo_code_for_user, MAX_ATTEMPTS. cbn [create_loop Nat.sub].
  rewrite G. unfold attempt. rewrite Hsel, Hins.
  apply generate_unique_code_returns in G.
  destruct G as (Hr & _ & Hs & _). rewrite Hr, Hs.
  now destruct (Sql.insert c DISCOUNT_TEMPLATE (now_created (env 0)) user_name
                           (now_issued (env 0)) w1).
Qed.

End FirstAttempt.



(** X4. A call without a user name never issues a code: whatever the
    environment does, it returns [(None, None)] with the table as it
    was; and when no exception is forced on its first attempt, it is the
    NOT NULL constraint that ends it there, after one call of the
    generator. *)
Theorem issuance_without_name_fails (tape : nat -> nat) (fuel : nat)
    (env : nat -> AttemptEnv) (w : World) :
  (forall res w',
      create_promo_code_for_user tape fuel None env w = Some (res, w') ->
      res = (None, None) /\ promo_codes w' = promo_codes w)
  /\ (forall c w1,
         generate_unique_code tape fuel w = Some (c, w1) ->
         raise_on_select (env 0) = None ->
         raise_on_insert (env 0) = None ->
         create_promo_code_for_user tape fuel None env w
         = Some ((None, None), w1)).
Proof.
  split.
  - intros res w' H. apply create_returns in H.
    destruct H as [(Hres & Hrows & _) | (c & i & _ & Hu & _)];
      [auto | now elim Hu].
  - intros c w1 G Hsel Hins.
    now rewrite (create_first_attempt tape fuel env None w w1 c G Hsel Hins).
Qed.

Lemma issuance_without_name_fails_witness :
  create_promo_code_for_user tape_count 1 None all_quiet empty_world
  = Some ((None, None), advance empty_world 8).
Proof.
  destruct (issuance_without_name_fails tape_count 1 all_quiet empty_world)
    as [_ H].
  apply (H "DCABCDEFGH" (advance empty_world 8)); reflexivity.
Defined.

(** ** Looking codes up *)

Lemma get_code_info_select (c : string) (w : World) :
  get_code_info c w = option_map info_of (Sql.select_by_code c (promo_codes w)).
Proof.
  unfold get_code_info.
  now destruct (Sql.select_by_code c (promo_codes w)).
Qed.

(** X5. A code that [create_promo_code_for_user] has returned is found by
    [get_code_info], unused, with the discount template and the name of
    the user, and [has_user_received_code] says so for that user. *)
Theorem issued_code_can_be_looked_up (tape : nat -> nat) (fuel : nat)
    (name : string) (env : nat -> AttemptEnv) (w w' : World)
    (c : string) (d : option string) :
  create_promo_code_for_user tape fuel (Some name) env w
  = Some ((Some c, d), w') ->
  has_user_received_code (Some name) w' = true
  /\ exists i,
       get_code_info c w' =
       Some {| info_code := c;
               info_discount := DISCOUNT_TEMPLATE;
               info_is_used := false;
               info_created := now_created (env i);
               info_issued_to := Some name;
               info_used_at := None;
               info_used_by := None |}.
Proof.
  intros H. apply create_returns in H.
  destruct H as [(Hres & _) | (c' & i & Hres & _ & Hnone & Hrows & _)];
    [discriminate|].
  injection Hres as <- _. split.
  - apply has_user_received_code_count.
    unfold issued_count, rows_of. rewrite Hrows, filter_app, length_app.
    cbn [filter Sql.new_row issued_to Sql.eq_param].
    rewrite String.eqb_refl. cbn [length]. lia.
  - exists i. rewrite get_code_info_select, Hrows, select_by_code_app, Hnone.
    unfold Sql.select_by_code. cbn [find Sql.new_row code].
    now rewrite String.eqb_refl.
Qed.

Lemma issued_code_can_be_looked_up_witness :
  has_user_received_code (Some "@ann") (world_one "@ann") = true.
Proof.
  apply (issued_code_can_be_looked_up tape_zero 1 "@ann" all_quiet
           empty_world (world_one "@ann") "DCAAAAAAAA" (Some "10%") eq_refl).
Defined.

(** X6. When [apply_promo_code] succeeds, [get_code_info] showed the code
    unused before, the message names the code and its discount, and
    afterwards [get_code_info] shows the same code used, at the given
    time, by the given user, everything else as before. *)
Theorem applied_code_shows_as_used (c : string) (by_ : option string)
    (now : timestamp) (w w' : World) (m : string) :
  apply_promo_code c by_ now w = ((true, m), w') ->
  exists info,
    get_code_info c w = Some info
    /\ info_is_used info = false
    /\ Py.truthy_opt (info_issued_to info) = true
    /\ m = applied_message c (info_discount info)
    /\ get_code_info c w' =
       Some {| info_code := info_code info;
               info_discount := info_discount info;
               info_is_used := true;
               info_created := info_created info;
               info_issued_to := info_issued_to info;
               info_used_at := Some now;
               info_used_by := by_ |}.
Proof.
  unfold apply_promo_code, apply_write. intros H.
  destruct (apply_check c w) as [m'|d] eqn:Hc; [discriminate|].
  injection H as <- <-.
  apply apply_check_passed in Hc. destruct Hc as (r & Hs & Ht & Hu & Hd).
  exists (info_of r). rewrite !get_code_info_select, select_after_update, Hs.
  cbn [option_map info_of info_is_used info_issued_to info_discount].
  subst d. auto.
Qed.

Lemma applied_code_shows_as_used_witness :
  exists info,
    get_code_info "DCAAAAAAAA" (world_one "@ann") = Some info
    /\ info_is_used info = false.
Proof.
  destruct (applied_code_shows_as_used "DCAAAAAAAA" (Some "@staff") 5%Z
              (world_one "@ann")
              (Sql.update_used "DCAAAAAAAA" 5 (Some "@staff")
                               (world_one "@ann"))
              (applied_message "DCAAAAAAAA" "10%") eq_refl)
    as (info & H1 & H2 & _).
  exists info. auto.
Defined.

Lemma update_issue_part (c : string) (now : timestamp) (by_ : option string)
    (rows : list PromoCode) :
  map issue_part
      (map (fun r => if String.eqb (code r) c
                     then Sql.set_used now by_ r else r) rows)
  = map issue_part rows.
Proof.
  rewrite map_map. apply map_ext. intros r.
  now destruct (String.eqb (code r) c).
Qed.

(** X7. [apply_promo_code] neither adds nor removes a row, leaves in every
    row what issuance wrote (id, code, discount, creation time, issuee,
    issue time), and leaves the rows under other codes as they are. *)
Theorem apply_touches_only_its_code (c : string) (by_ : option string)
    (now : timestamp) (w : World) :
  map issue_part (promo_codes (snd (apply_promo_code c by_ now w)))
  = map issue_part (promo_codes w)
  /\ last_id (snd (apply_promo_code c by_ now w)) = last_id w
  /\ forall c', c' <> c ->
       get_code_info c' (snd (apply_promo_code c by_ now w))
       = get_code_info c' w.
Proof.
  unfold apply_promo_code, apply_write.
  destruct (apply_check c w); cbn [snd].
  - auto.
  - split; [apply update_issue_part|]. split; [reflexivity|].
    intros c' Hne. rewrite !get_code_info_select.
    now rewrite select_other_after_update.
Qed.

(** X8. [get_code_info] finds nothing exactly when [apply_promo_code]
    answers that the code is not found. *)
Theorem lookup_agrees_with_apply (c : string) (by_ : option string)
    (now : timestamp) (w : World) :
  get_code_info c w = None <->
  fst (apply_promo_code c by_ now w) = (false, "Код не найден").
Proof.
  rewrite get_code_info_select. unfold apply_promo_code, apply_check, apply_write.
  destruct (Sql.select_by_code c (promo_codes w)) as [r|]; cbn [option_map].
  - split; [discriminate|].
    destruct (negb (Py.truthy_opt (issued_to r))); [discriminate|].
    destruct (is_used r); discriminate.
  - split; reflexivity.
Qed.

(** ** The message handlers *)






(** X9. [handle_photo] does not ask who sends the photo: for any sender, a
    photo that carries a redeemable code marks it used by that sender
    and answers with the message of success, to which the details are
    added for an administrator only. *)
Theorem photo_redeems_for_any_sender (admins : list string)
    (name c d : string) (now : timestamp) (w : World) :
  redeemable c d w ->
  Py.truthy c = true ->
  exists details,
    handle_photo admins name (Some c) now w =
    (Say (applied_message c d) :: details,
     Sql.update_used c now (Some name) w)
    /\ (Py.mem name admins = false -> details = [])
    /\ (Py.mem name admins = true ->
        exists info,
          details = [SayDetails info true]
          /\ info_is_used info = true
          /\ info_used_at info = Some now
          /\ info_used_by info = Some name).
Proof.
  intros Hred Hc. unfold handle_photo.
  rewrite Hc, (apply_redeemable c d (Some name) now w Hred).
  destruct Hred as (r & Hs & _).
  rewrite get_code_info_select, select_after_update, Hs.
  cbn [option_map].
  destruct (Py.mem name admins).
  - eexists. split; [reflexivity|]. split; [discriminate|].
    intros _. eexists. split; [reflexivity|]. cbn. auto.
  - exists []. split; [reflexivity|]. split; [reflexivity | discriminate].
Qed.

Lemma photo_redeems_for_any_sender_witness :
  exists details,
    handle_photo ["@boss"] "@mallory" (Some "DCAAAAAAAA") 7 (world_one "@ann")
    = (Say (applied_message "DCAAAAAAAA" "10%") :: details,
       Sql.update_used "DCAAAAAAAA" 7 (Some "@mallory") (world_one "@ann"))
    /\ details = [].
Proof.
  destruct (photo_redeems_for_any_sender ["@boss"] "@mallory" "DCAAAAAAAA"
              "10%" 7%Z (world_one "@ann"))
    as (details & H & Hnone & _).
  - exists (row_AAAAAAAA "@ann"). cbn. auto.
  - reflexivity.
  - exists details. split; [exact H | now apply Hnone].
Defined.



(** ** Sessions of the bot *)

Lemma admin_stats_world (admins : list string) (name : string) (w : World) :
  snd (admin_stats admins name w) = w.
Proof. unfold admin_stats. now destruct (negb (Py.mem name admins)). Qed.

Section Sessions.

Variable tape : nat -> nat.
Variable admins : list string.
Variable fuel : nat.

(** Every update either leaves the world as it is or does to it what
    one request does: a [get_promo], or an [apply_promo_code] in the
    name of the sender, the latter only for a photo or for a text of an
    administrator. *)
Lemma dispatch_simulated (u : update) (w w' : World) (a : answer) :
  dispatch tape admins fuel u w = Some (a, w') ->
  w' = w
  \/ exists q r,
       handle tape fuel q w = Some (r, w')
       /\ names_applier q = true
       /\ (may_apply admins u = false ->
           exists status name env, q = GetPromo status name env).
Proof.
  destruct u as [data status name env | user text now | name qr now | name];
    cbn [dispatch may_apply]; intros H.
  - unfold button_handler in H.
    destruct (String.eqb data "get_promo").
    + destruct (button_handler_get_promo tape fuel status name env w)
        as [[r w1]|] eqn:B; [|discriminate].
      injection H as _ <-. right.
      exists (GetPromo status name env), (PromoReply r).
      cbn [handle]. rewrite B.
      split; [reflexivity|]. split; [reflexivity|]. intros _. eauto.
    + left.
      destruct (String.eqb data "scan_qr"); [now injection H|].
      destruct (String.eqb data "help" && Py.mem name admins);
        [now injection H|].
      destruct (String.eqb data "help"); [now injection H|].
      destruct (Py.mem name admins); [|now injection H].
      destruct (String.eqb data "admin_stats"); [|now injection H].
      pose proof (admin_stats_world admins name w) as Hw.
      destruct (admin_stats admins name w) as [t w1].
      injection H as _ <-. exact Hw.
  - unfold handle_text in H.
    destruct user as [name|]; [|left; now injection H].
    destruct (Py.mem name admins) eqn:Hadm; [|left; now injection H].
    destruct (looks_like_code text); [|left; now injection H].
    destruct (apply_promo_code text (Some name) now w) as [[ok m] w1] eqn:A.
    assert (Hw : w' = w1).
    { destruct (true && ok); [destruct (get_code_info text w1)|];
        now injection H. }
    subst w1. right. exists (Apply text (Some name) now), (ApplyReply (ok, m)).
    cbn [handle]. rewrite A. split; [reflexivity|]. split; [reflexivity|].
    discriminate.
  - unfold handle_photo in H.
    destruct qr as [text|]; [|left; now injection H].
    destruct (Py.truthy text); [|left; now injection H].
    destruct (apply_promo_code text (Some name) now w) as [[ok m] w1] eqn:A.
    assert (Hw : w' = w1).
    { destruct (Py.mem name admins); [destruct (get_code_info text w1)|];
        now injection H. }
    subst w1. right. exists (Apply text (Some name) now), (ApplyReply (ok, m)).
    cbn [handle]. rewrite A. split; [reflexivity|]. split; [reflexivity|].
    discriminate.
  - left. pose proof (admin_stats_world admins name w) as Hw.
    destruct (admin_stats admins name w) as [t w1].
    injection H as _ <-. exact Hw.
Qed.

(** What every request that names its applier keeps, a session keeps. *)
Lemma serve_invariant (P : World -> Prop) :
  (forall q w r w',
      names_applier q = true -> P w ->
      handle tape fuel q w = Some (r, w') -> P w') ->
  forall (us : list update) (w w' : World) (answers : list answer),
    P w ->
    serve tape admins fuel us w = Some (answers, w') ->
    P w'.
Proof.
  intros Hstep. induction us as [|u us IH]; intros w w' answers Hw H;
    cbn [serve] in H.
  - now injection H as _ <-.
  - destruct (dispatch tape admins fuel u w) as [[a w1]|] eqn:D;
      [|discriminate].
    destruct (serve tape admins fuel us w1) as [[answers' w2]|] eqn:S;
      [|discriminate].
    injection H as _ <-. apply (IH w1 w2 answers'); [|exact S].
    apply dispatch_simulated in D.
    destruct D as [->|(q & r & Hh & Hq & _)]; [exact Hw|].
    eapply Hstep; eauto.
Qed.

Lemma handle_consistent (q : request) (w w' : World) (r : response) :
  names_applier q = true ->
  table_consistent (promo_codes w) = true ->
  handle tape fuel q w = Some (r, w') ->
  table_consistent (promo_codes w') = true.
Proof.
  intros Hq Hw H. destruct q as [status name env | c by_ now];
    cbn [handle names_applier] in *.
  - unfold button_handler_get_promo in H.
    destruct (is_subscribed status); [|now injection H as _ <-].
    destruct (has_user_received_code (Some name) w);
      [now injection H as _ <-|].
    destruct (create_promo_code_for_user tape fuel (Some name) env w)
      as [[res w1]|] eqn:C; [|discriminate].
    assert (Hw1 : w' = w1) by (destruct res as [[?|] ?]; now injection H).
    subst w1. apply create_returns in C.
    destruct C as [(_ & Hrows & _) | (c & i & _ & _ & _ & Hrows & _)];
      rewrite Hrows; [exact Hw|].
    unfold table_consistent in *. rewrite forallb_app, Hw.
    cbn [forallb]. now rewrite new_row_consistent.
  - destruct by_ as [name|]; [|discriminate].
    unfold apply_promo_code, apply_write in H.
    destruct (apply_check c w); injection H as _ <-; [exact Hw|].
    now apply update_used_consistent.
Qed.

Lemma handle_issue_part (q : request) (w w' : World) (r : response) :
  handle tape fuel q w = Some (r, w') ->
  begins_with (map issue_part (promo_codes w'))
              (map issue_part (promo_codes w)).
Proof.
  intros H. destruct q as [status name env | c by_ now]; cbn [handle] in H.
  - unfold button_handler_get_promo in H.
    destruct (is_subscribed status);
      [|injection H as _ <-; exists []; now rewrite app_nil_r].
    destruct (has_user_received_code (Some name) w);
      [injection H as _ <-; exists []; now rewrite app_nil_r|].
    destruct (create_promo_code_for_user tape fuel (Some name) env w)
      as [[res w1]|] eqn:C; [|discriminate].
    assert (Hw1 : w' = w1) by (destruct res as [[?|] ?]; now injection H).
    subst w1. apply create_returns in C.
    destruct C as [(_ & Hrows & _) | (c & i & _ & _ & _ & Hrows & _)];
      rewrite Hrows.
    + exists []. now rewrite app_nil_r.
    + rewrite map_app. eexists. reflexivity.
  - unfold apply_promo_code, apply_write in H.
    destruct (apply_check c w); injection H as _ <-.
    + exists []. now rewrite app_nil_r.
    + unfold Sql.update_used. cbn [promo_codes]. rewrite update_issue_part.
      exists []. now rewrite app_nil_r.
Qed.

Lemma handle_used_stays (c : string) (row : PromoCode) (q : request)
    (w w' : World) (r : response) :
  is_used row = true ->
  Sql.select_by_code c (promo_codes w) = Some row ->
  handle tape fuel q w = Some (r, w') ->
  Sql.select_by_code c (promo_codes w') = Some row.
Proof.
  intros Hu Hs H. destruct q as [status name env | c' by_ now];
    cbn [handle] in H.
  - unfold button_handler_get_promo in H.
    destruct (is_subscribed status); [|now injection H as _ <-].
    destruct (has_user_received_code (Some name) w);
      [now injection H as _ <-|].
    destruct (create_promo_code_for_user tape fuel (Some name) env w)
      as [[res w1]|] eqn:C; [|discriminate].
    assert (Hw1 : w' = w1) by (destruct res as [[?|] ?]; now injection H).
    subst w1. apply create_returns in C.
    destruct C as [(_ & Hrows & _) | (c0 & i & _ & _ & _ & Hrows & _)];
      rewrite Hrows; [exact Hs|].
    now rewrite select_by_code_app, Hs.
  - unfold apply_promo_code, apply_write in H.
    destruct (apply_check c' w) as [m|d] eqn:Hc; injection H as _ <-;
      [exact Hs|].
    destruct (String.eqb_spec c c') as [->|Hne].
    + apply apply_check_passed in Hc. destruct Hc as (r0 & Hs0 & _ & Hu0 & _).
      congruence.
    + now rewrite select_other_after_update.
Qed.

Lemma get_promo_appends (status name : string) (env : nat -> AttemptEnv)
    (w w' : World) (r : promo_reply) :
  button_handler_get_promo tape fuel status name env w = Some (r, w') ->
  begins_with (promo_codes w') (promo_codes w).
Proof.
  unfold button_handler_get_promo. intros H.
  destruct (is_subscribed status);
    [|injection H as _ <-; exists []; now rewrite app_nil_r].
  destruct (has_user_received_code (Some name) w);
    [injection H as _ <-; exists []; now rewrite app_nil_r|].
  destruct (create_promo_code_for_user tape fuel (Some name) env w)
    as [[res w1]|] eqn:C; [|discriminate].
  assert (Hw1 : w' = w1) by (destruct res as [[?|] ?]; now injection H).
  subst w1. apply create_returns in C.
  destruct C as [(_ & Hrows & _) | (c & i & _ & _ & _ & Hrows & _)];
    rewrite Hrows.
  - exists []. now rewrite app_nil_r.
  - eexists. reflexivity.
Qed.

End Sessions.

Lemma begins_with_trans {A : Type} (l1 l2 l3 : list A) :
  begins_with l2 l1 -> begins_with l3 l2 -> begins_with l3 l1.
Proof.
  intros [r1 ->] [r2 ->]. exists (r1 ++ r2)%list. now rewrite app_assoc.
Qed.

(** X11. Through the handlers of the bot, which all apply a code in the name
    of the sender, every row stays consistent: used with [used_at] and
    [used_by] set, or unused with both NULL. *)
Theorem session_keeps_rows_consistent (tape : nat -> nat)
    (admins : list string) (fuel : nat) (us : list update)
    (w w' : World) (answers : list answer) :
  table_consistent (promo_codes w) = true ->
  serve tape admins fuel us w = Some (answers, w') ->
  table_consistent (promo_codes w') = true.
Proof.
  intros Hw H.
  apply (serve_invariant tape admins fuel
           (fun w => table_consistent (promo_codes w) = true))
    with (us := us) (w := w) (answers := answers); [|exact Hw|exact H].
  intros q w0 r w1 Hq Hw0 Hh. eapply handle_consistent; eauto.
Qed.

Lemma session_keeps_rows_consistent_witness :
  table_consistent
    (promo_codes
       (final_world
          (serve tape_count ["@boss"] 1 issued_then_typed empty_world)))
  = true.
Proof.
  eapply (session_keeps_rows_consistent tape_count ["@boss"] 1
            issued_then_typed empty_world); reflexivity.
Defined.

(** X12. In a session, the codes of the table stay pairwise distinct and no
    row comes to have [issued_to] NULL. *)
Theorem session_keeps_codes_unique (tape : nat -> nat)
    (admins : list string) (fuel : nat) (us : list update)
    (w w' : World) (answers : list answer) :
  schema_ok (promo_codes w) ->
  serve tape admins fuel us w = Some (answers, w') ->
  NoDup (map code (promo_codes w'))
  /\ forall r, In r (promo_codes w') -> issued_to r <> None.
Proof.
  intros Hw H.
  assert (Hok : schema_ok (promo_codes w')).
  { apply (serve_invariant tape admins fuel
             (fun w => schema_ok (promo_codes w)))
      with (us := us) (w := w) (answers := answers); [|exact Hw|exact H].
    intros q w0 r w1 _ Hw0 Hh.
    now destruct (handle_counts tape fuel q w0 w1 r Hw0 Hh). }
  destruct Hok as [Hnd Hiss]. split; [exact Hnd|].
  intros r Hin Hnone. rewrite forallb_forall in Hiss.
  specialize (Hiss r Hin). rewrite Hnone in Hiss. discriminate.
Qed.

Lemma session_keeps_codes_unique_witness :
  NoDup
    (map code
       (promo_codes
          (final_world
             (serve tape_count ["@boss"] 1 three_codes empty_world)))).
Proof.
  eapply (session_keeps_codes_unique tape_count ["@boss"] 1
            three_codes empty_world).
  - split; [constructor | reflexivity].
  - reflexivity.
Defined.

(** X13. No handler deletes a row, reorders the table or rewrites what
    issuance recorded: after a session, the table begins with the rows
    it had, each with its id, code, discount, creation time, issuee and
    issue time. *)
Theorem session_never_deletes_rows (tape : nat -> nat)
    (admins : list string) (fuel : nat) (us : list update)
    (w w' : World) (answers : list answer) :
  serve tape admins fuel us w = Some (answers, w') ->
  begins_with (map issue_part (promo_codes w'))
              (map issue_part (promo_codes w)).
Proof.
  intros H.
  apply (serve_invariant tape admins fuel
           (fun w1 => begins_with (map issue_part (promo_codes w1))
                                  (map issue_part (promo_codes w))))
    with (us := us) (w := w) (answers := answers); [| |exact H].
  - intros q w0 r w1 _ Hw0 Hh.
    eapply begins_with_trans; [exact Hw0|].
    eapply handle_issue_part; eauto.
  - exists []. now rewrite app_nil_r.
Qed.

Lemma session_never_deletes_rows_witness :
  begins_with
    (map issue_part
       (promo_codes
          (final_world
             (serve tape_count ["@boss"] 1 typed_then_photographed
                    (world_one "@ann")))))
    (map issue_part (promo_codes (world_one "@ann"))).
Proof.
  eapply (session_never_deletes_rows tape_count ["@boss"] 1
            typed_then_photographed (world_one "@ann")).
  reflexivity.
Defined.

(** X14. What [get_code_info] shows of a used code is final: no later update
    of a session changes it, in particular not who used it and when. *)
Theorem used_code_stays_as_recorded (tape : nat -> nat)
    (admins : list string) (fuel : nat) (us : list update)
    (w w' : World) (answers : list answer) (c : string) (info : CodeInfo) :
  get_code_info c w = Some info ->
  info_is_used info = true ->
  serve tape admins fuel us w = Some (answers, w') ->
  get_code_info c w' = Some info.
Proof.
  rewrite !get_code_info_select. intros Hinfo Hu H.
  destruct (Sql.select_by_code c (promo_codes w)) as [row|] eqn:Hs;
    [|discriminate].
  injection Hinfo as <-. cbn [info_of info_is_used] in Hu.
  assert (Hs' : Sql.select_by_code c (promo_codes w') = Some row).
  { apply (serve_invariant tape admins fuel
             (fun w1 => Sql.select_by_code c (promo_codes w1) = Some row))
      with (us := us) (w := w) (answers := answers); [|exact Hs|exact H].
    intros q w0 r w1 _ Hw0 Hh. eapply handle_used_stays; eauto. }
  now rewrite Hs'.
Qed.

Lemma used_code_stays_as_recorded_witness :
  get_code_info "DCAAAAAAAA"
    (final_world
       (serve tape_count ["@boss"] 1 typed_then_photographed world_used))
  = Some (info_of (Sql.set_used 5 (Some "@staff") (row_AAAAAAAA "@ann"))).
Proof.
  eapply (used_code_stays_as_recorded tape_count ["@boss"] 1
            typed_then_photographed world_used); reflexivity.
Defined.

(** X15. Callback queries, the stats command and texts that do not come from
    an administrator never touch a row that exists: after any number of
    them the table is the old table, with the rows of the codes sent in
    between added at its end. *)
Theorem only_staff_texts_and_photos_modify_rows (tape : nat -> nat)
    (admins : list string) (fuel : nat) (us : list update) :
  forall (w w' : World) (answers : list answer),
    forallb (fun u => negb (may_apply admins u)) us = true ->
    serve tape admins fuel us w = Some (answers, w') ->
    begins_with (promo_codes w') (promo_codes w).
Proof.
  induction us as [|u us IH]; intros w w' answers Hus H; cbn [serve] in H.
  - injection H as _ <-. exists []. now rewrite app_nil_r.
  - cbn [forallb] in Hus. apply andb_prop in Hus. destruct Hus as [Hu Hus].
    apply negb_true_iff in Hu.
    destruct (dispatch tape admins fuel u w) as [[a w1]|] eqn:D;
      [|discriminate].
    destruct (serve tape admins fuel us w1) as [[answers' w2]|] eqn:S;
      [|discriminate].
    injection H as _ <-.
    apply begins_with_trans with (l2 := promo_codes w1);
      [|eapply IH; eauto].
    apply dispatch_simulated in D.
    destruct D as [->|(q & r & Hh & _ & Hq)];
      [exists []; now rewrite app_nil_r|].
    destruct (Hq Hu) as (status & name & env & ->). cbn [handle] in Hh.
    destruct (button_handler_get_promo tape fuel status name env w)
      as [[pr w1']|] eqn:B; [|discriminate].
    injection Hh as _ <-. eapply get_promo_appends; eauto.
Qed.

Lemma only_staff_texts_and_photos_modify_rows_witness :
  begins_with
    (promo_codes
       (final_world
          (serve tape_count ["@boss"] 1 no_staff_no_photo (world_one "@ann"))))
    (promo_codes (world_one "@ann")).
Proof.
  eapply (only_staff_texts_and_photos_modify_rows tape_count ["@boss"] 1
            no_staff_no_photo (world_one "@ann")); reflexivity.
Defined.

(** ** Statistics of a table that keeps its schema *)

Lemma filter_partition_length {A : Type} (f : A -> bool) (l : list A) :
  length (filter f l) + length (filter (fun x => negb (f x)) l) = length l.
Proof.
  induction l as [|a l IH]; cbn [filter]; [reflexivity|].
  destruct (f a); cbn [negb length]; lia.
Qed.

(** X16. When every row has its [issued_to], as the schema demands, the
    administrator reads as issued the whole table and as active the
    number of rows that are not used, which is never negative. *)
Theorem stats_of_issued_table (admins : list string) (name : string)
    (w : World) :
  Py.mem name admins = true ->
  forallb (fun r => is_not_null (issued_to r)) (promo_codes w) = true ->
  admin_stats admins name w =
  (stats_text
     (Z.of_nat (length (promo_codes w)))
     (Z.of_nat (length (promo_codes w)))
     (Z.of_nat (length (filter is_used (promo_codes w))))
     (Z.of_nat (length (filter (fun r => negb (is_used r)) (promo_codes w)))),
   w).
Proof.
  intros Hadm Hiss. unfold admin_stats, Sql.count_where. rewrite Hadm.
  cbn [negb].
  rewrite (forallb_filter_id _ _ Hiss).
  assert (Hall : filter (fun _ : PromoCode => true) (promo_codes w)
                 = promo_codes w)
    by (apply forallb_filter_id, forallb_forall; reflexivity).
  rewrite Hall.
  pose proof (filter_partition_length is_used (promo_codes w)) as Hp.
  do 2 f_equal. lia.
Qed.

Lemma stats_of_issued_table_witness :
  admin_stats ["@boss"] "@boss"
    (Sql.update_used "DCAAAAAAAA" 5 (Some "@staff") (world_one "@ann"))
  = (stats_text 1 1 1 0,
     Sql.update_used "DCAAAAAAAA" 5 (Some "@staff") (world_one "@ann")).
Proof.
  apply (stats_of_issued_table ["@boss"] "@boss"
           (Sql.update_used "DCAAAAAAAA" 5 (Some "@staff") (world_one "@ann"))
           eq_refl eq_refl).
Defined.

Lemma apply_touches_only_its_code_witness :
  map issue_part
      (promo_codes
         (snd (apply_promo_code "DCAAAAAAAA" (Some "@staff") 5
                                (world_one "@ann"))))
  = map issue_part (promo_codes (world_one "@ann"))
  /\ get_code_info "DCZZZZZZZZ"
       (snd (apply_promo_code "DCAAAAAAAA" (Some "@staff") 5
                              (world_one "@ann")))
     = get_code_info "DCZZZZZZZZ" (world_one "@ann").
Proof.
  destruct (apply_touches_only_its_code "DCAAAAAAAA" (Some "@staff") 5%Z
              (world_one "@ann")) as (Hpart & _ & Hother).
  split; [exact Hpart|]. apply Hother. discriminate.
Defined.

Lemma lookup_agrees_with_apply_witness :
  fst (apply_promo_code "DCZZZZZZZZ" (Some "@staff") 5 (world_one "@ann"))
  = (false, "Код не найден").
Proof.
  apply (lookup_agrees_with_apply "DCZZZZZZZZ" (Some "@staff") 5%Z
           (world_one "@ann")).
  reflexivity.
Defined.
